(** * Model railroad controller: device layer and command protocol

    A shallow embedding of [rr_l298n_motor_solenoid_server.py]: the [Track]
    and [Switch] devices, the registry owned by [ModelRailroadController],
    the command interpreter [process_command] and the per-connection part of
    [start_server].

    The GPIO daemon (pigpio), the socket and the JSON decoder are external
    libraries.  They are represented by what the program does to them: the
    pin levels and PWM duty cycles it sets, the ordered trace of the calls it
    issues, and the outcome of receiving and decoding one request. *)

From Stdlib Require Import ZArith String Ascii List QArith Lia.
From Stdlib Require Import Floats.SpecFloat.
From stdpp Require Import base option gmap strings list.

Import ListNotations.
Local Open Scope Z_scope.
Set Warnings "-register-all".
Set Default Proof Using "Type".

(** ** The GPIO abstraction *)

Module Pigpio.

(** One call made on the [pigpio.pi] handle, or a [time.sleep] taken
    between two of them.  Arguments are the Python arguments, in order. *)
Inductive call :=
| Read (pin level : Z)
| Write (pin level : Z)
| SetPWMDutycycle (pin duty : Z)
| SetPWMFrequency (pin freq : Z)
| SetModeOutput (pin : Z)
| SetPullUp (pin : Z)
| Sleep (seconds : Q).

(** The state behind the handle.  [levels] holds the level last written to
    each pin (a pin that was never written reads low), [duty] the duty cycle
    last set on each pin, and [trace] every call issued so far, oldest
    first, a [Read] with the level it returned.  The two maps are kept
    apart: what the daemon does to the PWM of a pin when its level is
    written, and to the level of a pin when its duty cycle is set, is not
    represented.  The program reads direction pins only, and never sets a
    duty cycle on one. *)
Record pi := Pi {
  levels : gmap Z bool;
  duty : gmap Z Z;
  trace : list call
}.

Definition emit (c : call) (g : pi) : pi :=
  Pi (levels g) (duty g) (trace g ++ [c]).

(** The logical level of a pin, 0 or 1. *)
Definition level (pin : Z) (g : pi) : Z :=
  if default false (levels g !! pin) then 1 else 0.

(** [rpi.read(pin)]: returns the level of the pin. *)
Definition read (pin : Z) (g : pi) : Z * pi :=
  (level pin g, emit (Read pin (level pin g)) g).

(** [rpi.write(pin, level)].  The program only ever passes the literals 0
    and 1; any non-zero level is stored as high.  [duty] keeps the last
    duty cycle set, also for the pin written. *)
Definition write (pin level : Z) (g : pi) : pi :=
  Pi (<[pin := negb (level =? 0)]> (levels g)) (duty g)
     (trace g ++ [Write pin level]).

(** [rpi.set_PWM_dutycycle(pin, d)].  [levels] keeps the last level
    written, also for the pin whose duty cycle is set. *)
Definition set_PWM_dutycycle (pin d : Z) (g : pi) : pi :=
  Pi (levels g) (<[pin := d]> (duty g)) (trace g ++ [SetPWMDutycycle pin d]).

Definition set_PWM_frequency (pin f : Z) : pi -> pi :=
  emit (SetPWMFrequency pin f).
Definition set_mode_output (pin : Z) : pi -> pi := emit (SetModeOutput pin).
Definition set_pull_up (pin : Z) : pi -> pi := emit (SetPullUp pin).

(** [time.sleep(s)] blocks the single thread; only its place in the
    sequence of calls is recorded. *)
Definition sleep (s : Q) : pi -> pi := emit (Sleep s).

(** The duty cycle last set on a pin, if any; the program never asks for
    it, the properties below do. *)
Definition get_PWM_dutycycle (pin : Z) (g : pi) : option Z := duty g !! pin.

(** The PWM duty-cycle writes a trace contains. *)
Definition pwm_writes (tr : list call) : list (Z * Z) :=
  omap (fun c => match c with
                 | SetPWMDutycycle p d => Some (p, d)
                 | _ => None
                 end) tr.

End Pigpio.

Import Pigpio.

(** ** Static configuration *)

Definition STATUS_INDICATOR : Z := 25.

Record track_config := TrackConfig { cfg_nb : Z; cfg_sb : Z; cfg_speed : Z }.
Record switch_config :=
  SwitchConfig { cfg_direct : Z; cfg_diverge : Z; cfg_trigger : Z }.

(** The two tables are Python dict literals; iteration follows the order in
    which the entries are written. *)
Definition TRACK_CONFIG : list (Z * track_config) :=
  [ (0, TrackConfig 4 5 18);
    (1, TrackConfig 6 12 19);
    (2, TrackConfig 13 16 17);
    (3, TrackConfig 22 23 24) ].

Definition SWITCH_CONFIG : list (Z * switch_config) :=
  [ (0, SwitchConfig 13 16 17);
    (1, SwitchConfig 22 23 24) ].

Definition PWM_FREQUENCY : Z := 20000.
Definition DEFAULT_SPEED : Z := 50.
Definition SWITCH_TRIGGER_DURATION : Q := 1 # 2.

(** ** Track *)

Record Track := MkTrack {
  track_id : Z;
  nb_pin : Z;
  sb_pin : Z;
  speed_pin : Z;
  current_speed : Z
}.

Definition with_speed (s : Z) (t : Track) : Track :=
  MkTrack (track_id t) (nb_pin t) (sb_pin t) (speed_pin t) s.

Module TrackOps.

Definition init (id nb_pin sb_pin speed_pin : Z) : Track :=
  MkTrack id nb_pin sb_pin speed_pin 0.

Definition northbound (self : Track) (g : pi) : pi :=
  let '(current_state, g) := read (nb_pin self) g in
  let g := write (nb_pin self) (if current_state =? 0 then 1 else 0) g in
  write (sb_pin self) 0 g.

Definition southbound (self : Track) (g : pi) : pi :=
  let '(current_state, g) := read (sb_pin self) g in
  let g := write (sb_pin self) (if current_state =? 0 then 1 else 0) g in
  write (nb_pin self) 0 g.

Definition stop (self : Track) (g : pi) : pi :=
  let g := write (nb_pin self) 0 g in
  write (sb_pin self) 0 g.

(** Returns the track object after the call together with the GPIO
    state; the out-of-range branch only logs a warning. *)
Definition set_speed (self : Track) (speed : Z) (g : pi) : Track * pi :=
  if (0 <=? speed) && (speed <=? 255) then
    (with_speed speed self, set_PWM_dutycycle (speed_pin self) speed g)
  else
    (self, g).

End TrackOps.

(** ** Switch *)

Record Switch := MkSwitch {
  switch_id : Z;
  direct_pin : Z;
  diverge_pin : Z;
  trigger_pin : Z
}.

Module SwitchOps.

Definition direct (self : Switch) (g : pi) : pi :=
  let g := write (direct_pin self) 1 g in
  let g := write (diverge_pin self) 0 g in
  let g := write (trigger_pin self) 1 g in
  let g := sleep SWITCH_TRIGGER_DURATION g in
  write (trigger_pin self) 0 g.

Definition diverge (self : Switch) (g : pi) : pi :=
  let g := write (direct_pin self) 0 g in
  let g := write (diverge_pin self) 1 g in
  let g := write (trigger_pin self) 1 g in
  let g := sleep SWITCH_TRIGGER_DURATION g in
  write (trigger_pin self) 0 g.

End SwitchOps.

(** ** Python values and the built-ins the interpreter relies on *)

(** A decoded JSON document.  Strings are sequences of code points below
    256; text with code points beyond that is outside this model. *)
Inductive pyval :=
| PyNone
| PyBool (b : bool)
| PyInt (z : Z)
| PyFloat (f : spec_float)
| PyStr (s : string)
| PyList (l : list pyval)
| PyDict (d : gmap string pyval).

Inductive exn :=
| AttributeError
| IndexError
| TypeError
| ValueError
| OverflowError.

Inductive outcome (A : Type) :=
| Return (a : A)
| Raise (e : exn).
Arguments Return {A} a.
Arguments Raise {A} e.

Module Py.

(** [bool(v)], as used by [if not action]. *)
Definition truthy (v : pyval) : bool :=
  match v with
  | PyNone => false
  | PyBool b => b
  | PyInt z => negb (z =? 0)
  | PyFloat (S754_zero _) => false
  | PyFloat _ => true
  | PyStr s => negb (String.eqb s EmptyString)
  | PyList l => negb (Nat.eqb (List.length l) 0)
  | PyDict d => negb (Nat.eqb (size d) 0)
  end.

(** [v.get(key)] and [v.get(key, dflt)]: only a dict has the method. *)
Definition get (v : pyval) (key : string) (dflt : pyval) : outcome pyval :=
  match v with
  | PyDict d => Return (default dflt (d !! key))
  | _ => Raise AttributeError
  end.

(** [s.split(sep)] for a one-character separator: never empty. *)
Fixpoint split_str (sep : ascii) (s : string) : list string :=
  match s with
  | EmptyString => [EmptyString]
  | String c s' =>
      if Ascii.eqb c sep then EmptyString :: split_str sep s'
      else match split_str sep s' with
           | p :: ps => String c p :: ps
           | [] => [String c EmptyString]
           end
  end.

Definition split (v : pyval) (sep : ascii) : outcome (list string) :=
  match v with
  | PyStr s => Return (split_str sep s)
  | _ => Raise AttributeError
  end.

(** [s[-1]]. *)
Fixpoint last_char (s : string) : outcome ascii :=
  match s with
  | EmptyString => Raise IndexError
  | String c EmptyString => Return c
  | String _ s' => last_char s'
  end.

Definition startswith (s p : string) : bool := String.prefix p s.

(** [sep.join(parts)]. *)
Definition join (sep : string) (parts : list string) : string :=
  String.concat sep parts.

Definition digit_val (c : ascii) : option Z :=
  let n := Z.of_N (N_of_ascii c) in
  if (48 <=? n) && (n <=? 57) then Some (n - 48) else None.

(** White space skipped by [int] around the number. *)
Definition is_space (c : ascii) : bool :=
  let n := Z.of_N (N_of_ascii c) in
  ((9 <=? n) && (n <=? 13)) || (n =? 32) || (n =? 133) || (n =? 160).

Fixpoint lstrip (s : string) : string :=
  match s with
  | EmptyString => EmptyString
  | String c s' => if is_space c then lstrip s' else s
  end.

Fixpoint rev_str (acc s : string) : string :=
  match s with
  | EmptyString => acc
  | String c s' => rev_str (String c acc) s'
  end.

Definition strip (s : string) : string :=
  rev_str EmptyString (lstrip (rev_str EmptyString (lstrip s))).

(** Decimal digits, single underscores allowed between two digits. *)
Fixpoint digits (prev_digit : bool) (acc : Z) (s : string) : option Z :=
  match s with
  | EmptyString => if prev_digit then Some acc else None
  | String c s' =>
      match digit_val c with
      | Some d => digits true (10 * acc + d) s'
      | None =>
          if Ascii.eqb c "_" && prev_digit then digits false acc s' else None
      end
  end.

(** [int(s)] for a string, base 10. *)
Definition int_str (s : string) : option Z :=
  match strip s with
  | String "+" r => digits false 0 r
  | String "-" r => Z.opp <$> digits false 0 r
  | r => digits false 0 r
  end.

(** [int(f)] for a float: truncation towards zero. *)
Definition int_float (f : spec_float) : outcome Z :=
  match f with
  | S754_zero _ => Return 0
  | S754_infinity _ => Raise OverflowError
  | S754_nan => Raise ValueError
  | S754_finite s m e =>
      let a := if 0 <=? e then Z.pos m * 2 ^ e else Z.pos m / 2 ^ (- e) in
      Return (if s then - a else a)
  end.

(** [int(v)]. *)
Definition int (v : pyval) : outcome Z :=
  match v with
  | PyInt z => Return z
  | PyBool b => Return (if b then 1 else 0)
  | PyFloat f => int_float f
  | PyStr s => match int_str s with
               | Some z => Return z
               | None => Raise ValueError
               end
  | PyNone | PyList _ | PyDict _ => Raise TypeError
  end.

End Py.

(** ** The controller: registry and command interpreter *)

Record controller := Controller {
  rpi : pi;
  tracks : gmap Z Track;
  switches : gmap Z Switch
}.

(** Code that runs against the controller either returns or raises; what it
    did to the controller before raising stays done. *)
Definition M (A : Type) : Type := controller -> outcome A * controller.

Definition ret {A} (a : A) : M A := fun c => (Return a, c).
Definition raise {A} (e : exn) : M A := fun c => (Raise e, c).
Definition lift {A} (o : outcome A) : M A := fun c => (o, c).
Definition bind {A B} (m : M A) (k : A -> M B) : M B :=
  fun c => match m c with
           | (Return a, c') => k a c'
           | (Raise e, c') => (Raise e, c')
           end.

Notation "x <- m ;; k" := (bind m (fun x => k))
  (at level 100, m at next level, right associativity).

(** Run a call on the shared GPIO handle. *)
Definition on_rpi (f : pi -> pi) : M unit :=
  fun c => (Return tt, Controller (f (rpi c)) (tracks c) (switches c)).

(** [try: body / except Exception: return False]. *)
Definition try_except (body : M bool) : controller -> bool * controller :=
  fun c => match body c with
           | (Return b, c') => (b, c')
           | (Raise _, c') => (false, c')
           end.

Module ModelRailroadController.

Definition init_track (c : controller) (entry : Z * track_config) : controller :=
  let '(track_id, config) := entry in
  let g := rpi c in
  let g := fold_left (fun g pin => set_pull_up pin (set_mode_output pin g))
                     [cfg_nb config; cfg_sb config] g in
  let speed_pin := cfg_speed config in
  let g := set_mode_output speed_pin g in
  let g := set_pull_up speed_pin g in
  let g := set_PWM_dutycycle speed_pin 0 g in
  let g := set_PWM_frequency speed_pin PWM_FREQUENCY g in
  Controller g
    (<[track_id := TrackOps.init track_id (cfg_nb config) (cfg_sb config)
                                 (cfg_speed config)]> (tracks c))
    (switches c).

Definition init_switch (c : controller) (entry : Z * switch_config) : controller :=
  let '(switch_id, config) := entry in
  let g := fold_left (fun g pin => set_pull_up pin (set_mode_output pin g))
                     [cfg_direct config; cfg_diverge config; cfg_trigger config]
                     (rpi c) in
  Controller g (tracks c)
    (<[switch_id := MkSwitch switch_id (cfg_direct config) (cfg_diverge config)
                             (cfg_trigger config)]> (switches c)).

(** [initialize_gpio] once the daemon is connected, [g] being the state of
    the pins at that moment. *)
Definition initialize_gpio (g : pi) : controller :=
  let c := Controller g ∅ ∅ in
  let c := fold_left init_track TRACK_CONFIG c in
  let c := fold_left init_switch SWITCH_CONFIG c in
  Controller (set_pull_up STATUS_INDICATOR (set_mode_output STATUS_INDICATOR (rpi c)))
             (tracks c) (switches c).

Definition _handle_track_command
    (track_id : Z) (command : string) (command_data : pyval) : M bool :=
  fun c =>
    match tracks c !! track_id with
    | None => ret false c
    | Some track =>
        if String.eqb command "nb" then
          (_ <- on_rpi (TrackOps.northbound track) ;; ret true) c
        else if String.eqb command "sb" then
          (_ <- on_rpi (TrackOps.southbound track) ;; ret true) c
        else if String.eqb command "stop" then
          (_ <- on_rpi (TrackOps.stop track) ;; ret true) c
        else if String.eqb command "speed" then
          (v <- lift (Py.get command_data "speed" (PyInt DEFAULT_SPEED)) ;;
           speed <- lift (Py.int v) ;;
           _ <- (fun c =>
                   let '(track', g) := TrackOps.set_speed track speed (rpi c) in
                   (Return tt,
                    Controller g (<[track_id := track']> (tracks c)) (switches c))) ;;
           ret true) c
        else ret false c
    end.

Definition _handle_switch_command
    (switch_id : Z) (command : string) (command_data : pyval) : M bool :=
  fun c =>
    match switches c !! switch_id with
    | None => ret false c
    | Some switch =>
        if String.eqb command "direct" then
          (_ <- on_rpi (SwitchOps.direct switch) ;; ret true) c
        else if String.eqb command "diverge" then
          (_ <- on_rpi (SwitchOps.diverge switch) ;; ret true) c
        else ret false c
    end.

(** The body of the [try] block of [process_command]. *)
Definition process_command_body (command_data : pyval) : M bool :=
  action <- lift (Py.get command_data "action" PyNone) ;;
  if negb (Py.truthy action) then ret false else
  parts <- lift (Py.split action "_") ;;
  if (length parts <? 2)%nat then ret false else
  let device_type := hd EmptyString parts in
  last <- lift (Py.last_char device_type) ;;
  device_id <- lift (Py.int (PyStr (String last EmptyString))) ;;
  let command := Py.join "_" (tl parts) in
  if Py.startswith device_type "track" then
    _handle_track_command device_id command command_data
  else if Py.startswith device_type "switch" then
    _handle_switch_command device_id command command_data
  else ret false.

Definition process_command (command_data : pyval) : controller -> bool * controller :=
  try_except (process_command_body command_data).

End ModelRailroadController.

Import ModelRailroadController.

(** ** The server: one connection *)

(** What [recv], [decode] and [json.loads] made of one accepted
    connection. *)
Inductive received :=
| TimedOut                          (* recv raised socket.timeout *)
| NoData                            (* recv returned the empty string *)
| Undecodable                       (* decode or json.loads raised *)
| Decoded (command_data : pyval).   (* json.loads returned command_data *)

(** The reply [{'status': ...}], by the value of its only field. *)
Record response := Response { status : string }.

(** One turn of the accept loop: the reply sent before the connection is
    closed, if any, and the controller afterwards. *)
Definition handle_connection (r : received) (c : controller)
  : option response * controller :=
  match r with
  | Decoded command_data =>
      let '(success, c') := process_command command_data c in
      (Some (Response (if success then "success" else "error")), c')
  | TimedOut | NoData | Undecodable => (None, c)
  end.

(** The accept loop over a finite sequence of connections. *)
Fixpoint serve (rs : list received) (c : controller)
  : list (option response) * controller :=
  match rs with
  | [] => ([], c)
  | r :: rs' =>
      let '(reply, c') := handle_connection r c in
      let '(replies, c'') := serve rs' c' in
      (reply :: replies, c'')
  end.

(** A request object with the given action and, optionally, speed. *)
Definition request (action : string) (speed : option pyval) : pyval :=
  PyDict (match speed with
          | Some v => <["speed" := v]> {["action" := PyStr action]}
          | None => {["action" := PyStr action]}
          end).

(** ** Derived notions used to state the properties *)

(** The GPIO state before anything was written. *)
Definition power_on : pi := Pi ∅ ∅ [].

(** The registry never changes after [initialize_gpio] except for the
    [current_speed] of its tracks.  [configured c] says that [c] holds
    exactly the devices [initialize_gpio] creates, with any speeds and any
    GPIO state. *)
Definition configured (c : controller) : Prop :=
  with_speed 0 <$> tracks c = tracks (initialize_gpio power_on) ∧
  switches c = switches (initialize_gpio power_on).

Definition wired (cfg : track_config) (t : Track) : Prop :=
  nb_pin t = cfg_nb cfg ∧ sb_pin t = cfg_sb cfg ∧ speed_pin t = cfg_speed cfg.

Inductive kind := KTrack | KSwitch.

(** The routing decision [process_command] takes on an action string: the
    handler chosen, the device id and the command passed on, or [None] when
    the action is turned down before any handler runs.  It follows the
    statements of [process_command] one by one and is shown to agree with
    it in [process_command_route]. *)
Definition route (action : string) : option (kind * Z * string) :=
  let parts := Py.split_str "_" action in
  if (length parts <? 2)%nat then None else
  let device_type := hd EmptyString parts in
  match Py.last_char device_type with
  | Raise _ => None
  | Return last =>
      match Py.digit_val last with
      | None => None
      | Some device_id =>
          let command := Py.join "_" (tl parts) in
          if Py.startswith device_type "track" then
            Some (KTrack, device_id, command)
          else if Py.startswith device_type "switch" then
            Some (KSwitch, device_id, command)
          else None
      end
  end.

(** The pins a device object holds. *)
Definition track_pins (t : Track) : list Z := [nb_pin t; sb_pin t; speed_pin t].
Definition switch_pins (s : Switch) : list Z :=
  [direct_pin s; diverge_pin s; trigger_pin s].

(** [g'] differs from [g] at most on [pins]. *)
Definition same_outside (pins : list Z) (g g' : pi) : Prop :=
  ∀ p, p ∉ pins → levels g' !! p = levels g !! p ∧ duty g' !! p = duty g !! p.

(** At most one of [nb_pin] and [sb_pin] is high, on every track of the
    registry. *)
Definition interlocked (ts : gmap Z Track) (g : pi) : Prop :=
  map_Forall (λ _ t, level (nb_pin t) g = 0 ∨ level (sb_pin t) g = 0) ts.

(** The action [track<t>_<op>] and [switch<t>_<op>] for a one-digit id. *)
Definition digit_char (d : Z) : ascii := ascii_of_N (Z.to_N (48 + d)).
Definition track_action (id : Z) (op : string) : string :=
  "track" +:+ String (digit_char id) ("_" +:+ op).
Definition switch_action (id : Z) (op : string) : string :=
  "switch" +:+ String (digit_char id) ("_" +:+ op).

(** What [process_command] does once [route] has decided. *)
Definition dispatch (command_data : pyval) (r : option (kind * Z * string))
  : controller -> bool * controller :=
  match r with
  | Some (KTrack, id, cmd) => try_except (_handle_track_command id cmd command_data)
  | Some (KSwitch, id, cmd) => try_except (_handle_switch_command id cmd command_data)
  | None => λ c, (false, c)
  end.

(** The controller after [set_speed] on the track registered under [id]. *)
Definition after_set_speed (id : Z) (t : Track) (s : Z) (c : controller) : controller :=
  let '(t', g) := TrackOps.set_speed t s (rpi c) in
  Controller g (<[id := t']> (tracks c)) (switches c).

Definition on_gpio (f : pi -> pi) (c : controller) : controller :=
  Controller (f (rpi c)) (tracks c) (switches c).

(** One device operation applied to one registered device. *)
Inductive device_step (c : controller) : controller -> Prop :=
| step_northbound id t :
    tracks c !! id = Some t → device_step c (on_gpio (TrackOps.northbound t) c)
| step_southbound id t :
    tracks c !! id = Some t → device_step c (on_gpio (TrackOps.southbound t) c)
| step_stop id t :
    tracks c !! id = Some t → device_step c (on_gpio (TrackOps.stop t) c)
| step_set_speed id t s :
    tracks c !! id = Some t → device_step c (after_set_speed id t s c)
| step_direct id s :
    switches c !! id = Some s → device_step c (on_gpio (SwitchOps.direct s) c)
| step_diverge id s :
    switches c !! id = Some s → device_step c (on_gpio (SwitchOps.diverge s) c).

#[global] Instance interlocked_dec (ts : gmap Z Track) (g : pi) :
  Decision (interlocked ts g).
Proof. unfold interlocked. apply _. Defined.

(** ** Shutdown *)

(** One turn of the loop [for track in self.tracks.values()] of [cleanup]:
    [track.stop()] and [track.set_speed(0)] on the track registered under
    [id]. *)
Definition cleanup_track (c : controller) (id : Z) : controller :=
  match tracks c !! id with
  | None => c
  | Some track =>
      let g := TrackOps.stop track (rpi c) in
      let '(track', g) := TrackOps.set_speed track 0 g in
      Controller g (<[id := track']> (tracks c)) (switches c)
  end.

(** [cleanup], as far as the pins go: every track is stopped and set to
    speed 0, then the status indicator is written low.  The registry is a
    Python dict filled by [initialize_gpio] in the order of [TRACK_CONFIG],
    and [values()] follows that order.  Closing the server socket and
    releasing the daemon handle ([rpi.stop()]) leave pins and registry as
    they are. *)
Definition cleanup (c : controller) : controller :=
  let c := fold_left cleanup_track (map fst TRACK_CONFIG) c in
  Controller (write STATUS_INDICATOR 0 (rpi c)) (tracks c) (switches c).

(** [start_server]: the accept loop over the connections [rs] taken before
    the loop is interrupted, then the [finally] clause. *)
Definition start_server (rs : list received) (c : controller)
  : list (option response) * controller :=
  let '(replies, c') := serve rs c in
  (replies, cleanup c').

(** ** Further notions used to state properties *)

(** [sep in s]. *)
Fixpoint contains (sep : ascii) (s : string) : bool :=
  match s with
  | EmptyString => false
  | String ch s' => Ascii.eqb ch sep || contains sep s'
  end.

(** The track registered under [id] is at rest: both direction pins low,
    speed 0 recorded and set as duty cycle. *)
Definition at_rest (id : Z) (c : controller) : Prop :=
  ∃ t, tracks c !! id = Some t
       ∧ current_speed t = 0
       ∧ level (nb_pin t) (rpi c) = 0
       ∧ level (sb_pin t) (rpi c) = 0
       ∧ get_PWM_dutycycle (speed_pin t) (rpi c) = Some 0.

(** Every track's [current_speed] lies in 0..255 and is the duty cycle last
    set on its [speed_pin]. *)
Definition speeds_mirrored (c : controller) : Prop :=
  ∀ id t, tracks c !! id = Some t →
          0 <= current_speed t <= 255
          ∧ get_PWM_dutycycle (speed_pin t) (rpi c) = Some (current_speed t).

(** The calls a command may issue: reads, level writes, duty-cycle writes
    and sleeps, but no change of mode, pull-up or PWM frequency. *)
Definition runtime_call (cl : call) : bool :=
  match cl with
  | Read _ _ | Write _ _ | SetPWMDutycycle _ _ | Sleep _ => true
  | SetPWMFrequency _ _ | SetModeOutput _ | SetPullUp _ => false
  end.

(** The calls start-up is to issue, written down from the configuration
    tables: every pin of a device is made an output with a pull-up, a speed
    pin then gets duty cycle 0 and the PWM frequency; tracks come first,
    then switches, then the status indicator. *)
Definition output_with_pull_up (pin : Z) : list call :=
  [SetModeOutput pin; SetPullUp pin].

Definition track_init_calls (cfg : track_config) : list call :=
  output_with_pull_up (cfg_nb cfg) ++ output_with_pull_up (cfg_sb cfg)
  ++ output_with_pull_up (cfg_speed cfg)
  ++ [SetPWMDutycycle (cfg_speed cfg) 0;
      SetPWMFrequency (cfg_speed cfg) PWM_FREQUENCY].

Definition switch_init_calls (cfg : switch_config) : list call :=
  output_with_pull_up (cfg_direct cfg) ++ output_with_pull_up (cfg_diverge cfg)
  ++ output_with_pull_up (cfg_trigger cfg).

Definition init_calls : list call :=
  flat_map (λ entry, track_init_calls entry.2) TRACK_CONFIG
  ++ flat_map (λ entry, switch_init_calls entry.2) SWITCH_CONFIG
  ++ output_with_pull_up STATUS_INDICATOR.

(** No call of the list writes a pin level. *)
Definition writes_no_level (calls : list call) : bool :=
  forallb (λ cl, match cl with Write _ _ => false | _ => true end) calls.

(** The device a request addresses, as [process_command] reads it off the
    action: the kind by the start of the text before the first underscore,
    the id by the last character of that text. *)
Definition addresses (cd : pyval) (k : kind) (id : Z) : Prop :=
  ∃ d a device_type ops last,
    cd = PyDict d ∧ d !! "action" = Some (PyStr a)
    ∧ Py.split_str "_" a = device_type :: ops
    ∧ Py.last_char device_type = Return last
    ∧ Py.digit_val last = Some id
    ∧ match k with
      | KTrack => Py.startswith device_type "track" = true
      | KSwitch => Py.startswith device_type "track" = false
                   ∧ Py.startswith device_type "switch" = true
      end.

(** [g'] agrees with [g] on every pin of [pins]. *)
Definition untouched (pins : list Z) (g g' : pi) : Prop :=
  ∀ p, p ∈ pins → levels g' !! p = levels g !! p ∧ duty g' !! p = duty g !! p.

(** * Properties *)

(** ** Reading pins back *)

Section PinFacts.
Context (g : pi).

Lemma level_emit (p : Z) (c : call) : level p (emit c g) = level p g.
Proof. reflexivity. Qed.

Lemma level_write (p q v : Z) :
  level p (write q v g) =
  if decide (p = q) then (if v =? 0 then 0 else 1) else level p g.
Proof.
  unfold level, write; simpl.
  destruct (decide (p = q)) as [->|Hne].
  - rewrite lookup_insert_eq; simpl. by destruct (v =? 0).
  - by rewrite lookup_insert_ne.
Qed.

Lemma level_bit (p : Z) : level p g = 0 ∨ level p g = 1.
Proof. unfold level. destruct (default false _); auto. Qed.

Lemma level_sleep (p : Z) (s : Q) : level p (sleep s g) = level p g.
Proof. reflexivity. Qed.

Lemma level_set_PWM_dutycycle (p q d : Z) :
  level p (set_PWM_dutycycle q d g) = level p g.
Proof. reflexivity. Qed.

End PinFacts.

Lemma pwm_writes_app (tr1 tr2 : list call) :
  pwm_writes (tr1 ++ tr2) = pwm_writes tr1 ++ pwm_writes tr2.
Proof. apply omap_app. Qed.

(** ** The built-ins and the interpreter on sample inputs *)

Example split_samples :
  Py.split_str "_" "track2_speed" = ["track2"; "speed"]
  ∧ Py.split_str "_" "a_b__c" = ["a"; "b"; ""; "c"]
  ∧ Py.split_str "_" "_" = [""; ""]
  ∧ Py.split_str "_" "stop" = ["stop"].
Proof. repeat split. Qed.

Example int_str_samples :
  map Py.int_str [" 200 "; "+5"; "-5"; "1_0"; "007"]
    = [Some 200; Some 5; Some (-5); Some 10; Some 7]
  ∧ map Py.int_str ["_1"; "1_"; "1__0"; ""; "+"; "+ 1"; "0x1"; "s"]
    = [None; None; None; None; None; None; None; None].
Proof. split; vm_compute; reflexivity. Qed.

Example int_float_samples :
  Py.int (PyFloat (S754_finite false 39 (-1))) = Return 19
  ∧ Py.int (PyFloat (S754_finite true 39 (-1))) = Return (-19)
  ∧ Py.int (PyFloat (S754_infinity false)) = Raise OverflowError.
Proof. repeat split. Qed.

Example track2_speed_200 :
  let c := initialize_gpio power_on in
  process_command (request "track2_speed" (Some (PyInt 200))) c
  = (true, after_set_speed 2 (TrackOps.init 2 13 16 17) 200 c).
Proof. vm_compute. reflexivity. Qed.

Example switch1_diverge :
  let c := initialize_gpio power_on in
  process_command (request "switch1_diverge" None) c
  = (true, on_gpio (SwitchOps.diverge (MkSwitch 1 22 23 24)) c).
Proof. vm_compute. reflexivity. Qed.

Example track9_nb_rejected :
  let c := initialize_gpio power_on in
  process_command (request "track9_nb" None) c = (false, c).
Proof. vm_compute. reflexivity. Qed.

Example bogus_foo_rejected :
  let c := initialize_gpio power_on in
  process_command (request "bogus_foo" None) c = (false, c).
Proof. vm_compute. reflexivity. Qed.

(** ** The registry *)

Lemma tracks_initialize_gpio (g : pi) :
  tracks (initialize_gpio g) =
  <[3 := TrackOps.init 3 22 23 24]>
    (<[2 := TrackOps.init 2 13 16 17]>
       (<[1 := TrackOps.init 1 6 12 19]>
          (<[0 := TrackOps.init 0 4 5 18]> ∅))).
Proof. reflexivity. Qed.

Lemma switches_initialize_gpio (g : pi) :
  switches (initialize_gpio g) =
  <[1 := MkSwitch 1 22 23 24]> (<[0 := MkSwitch 0 13 16 17]> ∅).
Proof. reflexivity. Qed.

Lemma initialize_gpio_configured (g : pi) : configured (initialize_gpio g).
Proof.
  split; [|reflexivity].
  rewrite !tracks_initialize_gpio. rewrite !fmap_insert, fmap_empty. reflexivity.
Qed.

Lemma with_speed_current (t : Track) : with_speed (current_speed t) t = t.
Proof. by destruct t. Qed.

Lemma configured_track (c : controller) (id : Z) (t : Track) :
  configured c → tracks c !! id = Some t →
  ∃ cfg, In (id, cfg) TRACK_CONFIG ∧ track_id t = id ∧ wired cfg t.
Proof.
  intros [Ht _] Hid.
  assert (tracks (initialize_gpio power_on) !! id = Some (with_speed 0 t)) as H.
  { by rewrite <- Ht, lookup_fmap, Hid. }
  rewrite tracks_initialize_gpio in H.
  repeat (rewrite lookup_insert in H; case_decide; simplify_eq/=).
  all: destruct t; unfold with_speed, TrackOps.init in H; simplify_eq/=.
  all: eexists (TrackConfig _ _ _); (split; [|split; [reflexivity|done]]);
    simpl; eauto 6.
Qed.

Lemma configured_switch (c : controller) (id : Z) (s : Switch) :
  configured c → switches c !! id = Some s →
  In (id, SwitchConfig (direct_pin s) (diverge_pin s) (trigger_pin s)) SWITCH_CONFIG
  ∧ switch_id s = id.
Proof.
  intros [_ Hs] Hid. rewrite Hs, switches_initialize_gpio in Hid.
  repeat (rewrite lookup_insert in Hid; case_decide; simplify_eq/=).
  all: simpl; auto.
Qed.

Lemma configured_has_track (c : controller) (id : Z) (cfg : track_config) :
  configured c → In (id, cfg) TRACK_CONFIG →
  ∃ t, tracks c !! id = Some t ∧ track_id t = id ∧ wired cfg t.
Proof.
  intros Hc Hin.
  assert (is_Some (tracks c !! id)) as [t Ht].
  { destruct Hc as [Hc _].
    apply (f_equal (λ m, m !! id)) in Hc. rewrite lookup_fmap in Hc.
    rewrite tracks_initialize_gpio in Hc.
    destruct (tracks c !! id); [eauto|]. exfalso.
    simpl in Hin.
    destruct Hin as [?|[?|[?|[?|[]]]]]; simplify_eq;
      vm_compute in Hc; discriminate. }
  exists t. split; [done|].
  destruct (configured_track c id t Hc Ht) as (cfg' & Hin' & ? & ?).
  split; [done|].
  simpl in Hin, Hin'.
  destruct Hin as [?|[?|[?|[?|[]]]]], Hin' as [?|[?|[?|[?|[]]]]];
    simplify_eq; first [done | lia].
Qed.

Lemma configured_nb_sb (c : controller) (id : Z) (t : Track) :
  configured c → tracks c !! id = Some t → nb_pin t ≠ sb_pin t.
Proof.
  intros Hc Ht.
  destruct (configured_track c id t Hc Ht) as (cfg & Hin & _ & Hn & Hs & _).
  simpl in Hin. destruct Hin as [?|[?|[?|[?|[]]]]]; simplify_eq; simpl in *; lia.
Qed.

(** ** Track operations *)

Section TrackFacts.
Context (t : Track) (g : pi).

Lemma northbound_trace :
  trace (TrackOps.northbound t g) =
  trace g ++ [Read (nb_pin t) (level (nb_pin t) g);
              Write (nb_pin t) (1 - level (nb_pin t) g); Write (sb_pin t) 0].
Proof.
  unfold TrackOps.northbound, read, write, emit; simpl.
  rewrite <- !app_assoc; simpl.
  by destruct (level_bit g (nb_pin t)) as [-> | ->].
Qed.

Lemma northbound_sb : level (sb_pin t) (TrackOps.northbound t g) = 0.
Proof.
  unfold TrackOps.northbound, read; cbv beta iota zeta.
  rewrite level_write. by case_decide.
Qed.

Lemma northbound_nb :
  nb_pin t ≠ sb_pin t →
  level (nb_pin t) (TrackOps.northbound t g) = 1 - level (nb_pin t) g.
Proof.
  intros Hne. unfold TrackOps.northbound, read; cbv beta iota zeta.
  rewrite !level_write, level_emit.
  repeat case_decide; try done.
  by destruct (level_bit g (nb_pin t)) as [-> | ->].
Qed.

Lemma southbound_trace :
  trace (TrackOps.southbound t g) =
  trace g ++ [Read (sb_pin t) (level (sb_pin t) g);
              Write (sb_pin t) (1 - level (sb_pin t) g); Write (nb_pin t) 0].
Proof.
  unfold TrackOps.southbound, read, write, emit; simpl.
  rewrite <- !app_assoc; simpl.
  by destruct (level_bit g (sb_pin t)) as [-> | ->].
Qed.

Lemma southbound_nb : level (nb_pin t) (TrackOps.southbound t g) = 0.
Proof.
  unfold TrackOps.southbound, read; cbv beta iota zeta.
  rewrite level_write. by case_decide.
Qed.

Lemma stop_trace :
  trace (TrackOps.stop t g) = trace g ++ [Write (nb_pin t) 0; Write (sb_pin t) 0].
Proof. unfold TrackOps.stop, write; simpl. by rewrite <- app_assoc. Qed.

Lemma stop_nb : level (nb_pin t) (TrackOps.stop t g) = 0.
Proof. unfold TrackOps.stop. rewrite !level_write. by repeat case_decide. Qed.

Lemma stop_sb : level (sb_pin t) (TrackOps.stop t g) = 0.
Proof. unfold TrackOps.stop. rewrite !level_write. by repeat case_decide. Qed.

Lemma stop_duty : duty (TrackOps.stop t g) = duty g.
Proof. reflexivity. Qed.

Lemma stop_levels_idempotent :
  levels (TrackOps.stop t (TrackOps.stop t g)) = levels (TrackOps.stop t g).
Proof.
  unfold TrackOps.stop, write; simpl. apply map_eq; intros p.
  rewrite !lookup_insert. by repeat case_decide.
Qed.

End TrackFacts.

(** C7. [northbound] issues three calls: it reads [nb_pin], writes the
    complement of the level read back to [nb_pin], then writes 0 to
    [sb_pin].  On every track of the
    registry a second call restores the level [nb_pin] had before the first,
    and never leaves it where the first call put it: the operation toggles
    and is not idempotent. *)
Theorem northbound_toggle_law (c : controller) (id : Z) (t : Track) (g : pi) :
  configured c → tracks c !! id = Some t →
  trace (TrackOps.northbound t g) =
    trace g ++ [Read (nb_pin t) (level (nb_pin t) g);
                Write (nb_pin t) (1 - level (nb_pin t) g); Write (sb_pin t) 0]
  ∧ level (nb_pin t) (TrackOps.northbound t g) = 1 - level (nb_pin t) g
  ∧ level (sb_pin t) (TrackOps.northbound t g) = 0
  ∧ level (nb_pin t) (TrackOps.northbound t (TrackOps.northbound t g))
    = level (nb_pin t) g
  ∧ level (nb_pin t) (TrackOps.northbound t (TrackOps.northbound t g))
    ≠ level (nb_pin t) (TrackOps.northbound t g).
Proof.
  intros Hc Ht. pose proof (configured_nb_sb c id t Hc Ht) as Hne.
  split; [apply northbound_trace|].
  split; [by apply northbound_nb|].
  split; [apply northbound_sb|].
  rewrite !northbound_nb by done.
  destruct (level_bit g (nb_pin t)) as [-> | ->]; split; lia.
Qed.

Lemma northbound_toggle_law_witness :
  let c := initialize_gpio (write 4 1 power_on) in
  let t := TrackOps.init 0 4 5 18 in
  configured c ∧ tracks c !! 0 = Some t
  ∧ level (nb_pin t) (rpi c) = 1
  ∧ level (nb_pin t) (TrackOps.northbound t (rpi c)) = 0
  ∧ level (nb_pin t) (TrackOps.northbound t (TrackOps.northbound t (rpi c))) = 1.
Proof.
  intros c t.
  assert (configured c) as Hc by (split; vm_compute; reflexivity).
  assert (tracks c !! 0 = Some t) as Ht by (vm_compute; reflexivity).
  destruct (northbound_toggle_law c 0 t (rpi c) Hc Ht) as (_ & H1 & _ & H2 & _).
  assert (level (nb_pin t) (rpi c) = 1) as H0 by (vm_compute; reflexivity).
  rewrite H0 in H1, H2.
  exact (conj Hc (conj Ht (conj H0 (conj H1 H2)))).
Defined.

(** ** Switch operations *)

Section SwitchFacts.
Context (s : Switch) (g : pi).

Lemma direct_trace :
  trace (SwitchOps.direct s g) =
  trace g ++ [Write (direct_pin s) 1; Write (diverge_pin s) 0;
              Write (trigger_pin s) 1; Sleep SWITCH_TRIGGER_DURATION;
              Write (trigger_pin s) 0].
Proof.
  unfold SwitchOps.direct, write, sleep, emit; simpl.
  by rewrite <- !app_assoc.
Qed.

Lemma diverge_trace :
  trace (SwitchOps.diverge s g) =
  trace g ++ [Write (direct_pin s) 0; Write (diverge_pin s) 1;
              Write (trigger_pin s) 1; Sleep SWITCH_TRIGGER_DURATION;
              Write (trigger_pin s) 0].
Proof.
  unfold SwitchOps.diverge, write, sleep, emit; simpl.
  by rewrite <- !app_assoc.
Qed.

Lemma direct_trigger : level (trigger_pin s) (SwitchOps.direct s g) = 0.
Proof. unfold SwitchOps.direct. rewrite level_write. by case_decide. Qed.

Lemma diverge_trigger : level (trigger_pin s) (SwitchOps.diverge s g) = 0.
Proof. unfold SwitchOps.diverge. rewrite level_write. by case_decide. Qed.

End SwitchFacts.

(** C8. From every prior pin state and for every switch, [direct] issues
    exactly: 1 to [direct_pin], 0 to [diverge_pin], 1 to [trigger_pin], the
    sleep of the configured duration, 0 to [trigger_pin]; [diverge] issues
    the same with the two position levels exchanged.  Both end with
    [trigger_pin] reading 0. *)
Theorem switch_pulse_sequence (s : Switch) (g : pi) :
  (trace (SwitchOps.direct s g) =
     trace g ++ [Write (direct_pin s) 1; Write (diverge_pin s) 0;
                 Write (trigger_pin s) 1; Sleep SWITCH_TRIGGER_DURATION;
                 Write (trigger_pin s) 0]
   ∧ level (trigger_pin s) (SwitchOps.direct s g) = 0)
  ∧ (trace (SwitchOps.diverge s g) =
       trace g ++ [Write (direct_pin s) 0; Write (diverge_pin s) 1;
                   Write (trigger_pin s) 1; Sleep SWITCH_TRIGGER_DURATION;
                   Write (trigger_pin s) 0]
     ∧ level (trigger_pin s) (SwitchOps.diverge s g) = 0).
Proof.
  repeat split;
    auto using direct_trace, diverge_trace, direct_trigger, diverge_trigger.
Qed.

(** C10. For a speed [s] with [0 <= s <= 255], [set_speed] records [s] as
    the track's [current_speed] and issues exactly one call on the GPIO
    handle: the PWM duty-cycle write of [s] to the track's [speed_pin].  The
    pins and every other field are left as they were. *)
Theorem set_speed_in_range (t : Track) (s : Z) (g : pi) :
  0 <= s <= 255 →
  let '(t', g') := TrackOps.set_speed t s g in
  current_speed t' = s
  ∧ t' = with_speed s t
  ∧ trace g' = trace g ++ [SetPWMDutycycle (speed_pin t) s]
  ∧ pwm_writes (trace g') = pwm_writes (trace g) ++ [(speed_pin t, s)]
  ∧ get_PWM_dutycycle (speed_pin t) g' = Some s
  ∧ levels g' = levels g.
Proof.
  intros Hs. unfold TrackOps.set_speed.
  replace ((0 <=? s) && (s <=? 255)) with true by (symmetry; apply andb_true_iff; lia).
  repeat split; simpl.
  - by rewrite pwm_writes_app.
  - unfold get_PWM_dutycycle; simpl. apply lookup_insert_eq.
Qed.

Lemma set_speed_in_range_witness :
  let '(t', g') := TrackOps.set_speed (TrackOps.init 2 13 16 17) 200 power_on in
  current_speed t' = 200
  ∧ t' = with_speed 200 (TrackOps.init 2 13 16 17)
  ∧ trace g' = trace power_on ++ [SetPWMDutycycle 17 200]
  ∧ pwm_writes (trace g') = pwm_writes (trace power_on) ++ [(17, 200)]
  ∧ get_PWM_dutycycle 17 g' = Some 200
  ∧ levels g' = levels power_on.
Proof.
  apply (set_speed_in_range (TrackOps.init 2 13 16 17) 200 power_on). lia.
Defined.

(** ** The command interpreter *)

Lemma int_single_char (ch : ascii) :
  Py.int (PyStr (String ch EmptyString)) =
  match Py.digit_val ch with
  | Some d => Return d
  | None => Raise ValueError
  end.
Proof.
  destruct ch as [[] [] [] [] [] [] [] []]; vm_compute; reflexivity.
Qed.

Lemma process_command_route (d : gmap string pyval) (a : string) (c : controller) :
  d !! "action" = Some (PyStr a) →
  process_command (PyDict d) c = dispatch (PyDict d) (route a) c.
Proof.
  intros Ha.
  unfold process_command, try_except, process_command_body, bind, lift, ret, Py.get.
  rewrite Ha. change (default PyNone (Some (PyStr a))) with (PyStr a).
  destruct a as [|a0 a]; [reflexivity|].
  cbn [Py.truthy String.eqb negb Py.split]. unfold route.
  destruct (length _ <? 2)%nat; [reflexivity|].
  destruct (Py.last_char _) as [last|]; [|reflexivity].
  rewrite int_single_char.
  destruct (Py.digit_val last) as [id|]; [|reflexivity].
  destruct (Py.startswith _ "track"); [reflexivity|].
  destruct (Py.startswith _ "switch"); reflexivity.
Qed.

Lemma handle_track_command_cases
    (id : Z) (cmd : string) (cd : pyval) (c : controller) :
  let r := try_except (_handle_track_command id cmd cd) c in
  r = (false, c) ∨
  ∃ t, tracks c !! id = Some t ∧ r.1 = true ∧
       ((cmd = "nb" ∧ r.2 = on_gpio (TrackOps.northbound t) c)
        ∨ (cmd = "sb" ∧ r.2 = on_gpio (TrackOps.southbound t) c)
        ∨ (cmd = "stop" ∧ r.2 = on_gpio (TrackOps.stop t) c)
        ∨ (cmd = "speed" ∧ ∃ d s,
             cd = PyDict d
             ∧ Py.int (default (PyInt DEFAULT_SPEED) (d !! "speed")) = Return s
             ∧ r.2 = after_set_speed id t s c)).
Proof.
  unfold try_except, _handle_track_command.
  destruct (tracks c !! id) as [t|] eqn:Ht; [|by left].
  destruct (String.eqb_spec cmd "nb") as [->|_];
    [right; exists t; cbn; eauto 10|].
  destruct (String.eqb_spec cmd "sb") as [->|_];
    [right; exists t; cbn; eauto 10|].
  destruct (String.eqb_spec cmd "stop") as [->|_];
    [right; exists t; cbn; eauto 10|].
  destruct (String.eqb_spec cmd "speed") as [->|_]; [|by left].
  unfold bind, lift, ret.
  destruct cd as [| | | | | |d]; try by left.
  cbn [Py.get].
  destruct (Py.int (default (PyInt DEFAULT_SPEED) (d !! "speed"))) as [s|] eqn:Hs;
    [|by left].
  right. exists t. split; [done|].
  destruct (TrackOps.set_speed t s (rpi c)) as [t' g'] eqn:Hset.
  split; [done|]. do 3 right. split; [done|]. exists d, s.
  unfold after_set_speed. by rewrite Hset.
Qed.

Lemma handle_switch_command_cases
    (id : Z) (cmd : string) (cd : pyval) (c : controller) :
  let r := try_except (_handle_switch_command id cmd cd) c in
  r = (false, c) ∨
  ∃ s, switches c !! id = Some s ∧ r.1 = true ∧
       ((cmd = "direct" ∧ r.2 = on_gpio (SwitchOps.direct s) c)
        ∨ (cmd = "diverge" ∧ r.2 = on_gpio (SwitchOps.diverge s) c)).
Proof.
  unfold try_except, _handle_switch_command.
  destruct (switches c !! id) as [s|] eqn:Hs; [|by left].
  destruct (String.eqb_spec cmd "direct") as [->|_];
    [right; exists s; cbn; eauto 10|].
  destruct (String.eqb_spec cmd "diverge") as [->|_];
    [right; exists s; cbn; eauto 10|].
  by left.
Qed.

(** A request that is not an object with a string under [action] is turned
    down before anything is touched. *)
Lemma process_command_no_action (cd : pyval) (c : controller) :
  (∀ d a, cd = PyDict d → d !! "action" ≠ Some (PyStr a)) →
  process_command cd c = (false, c).
Proof.
  intros Hno.
  destruct cd as [| | | | | |d]; try reflexivity.
  unfold process_command, try_except, process_command_body, bind, lift, ret, Py.get.
  specialize (Hno d).
  destruct (d !! "action") as [[|[]|z|f|a|l|d']|]; try reflexivity.
  - cbn. by destruct (z =? 0).
  - by destruct f.
  - by destruct (Hno a).
  - cbn. by destruct l.
  - cbn. by destruct (size d').
Qed.

(** Every command is turned down without effect or is one device
    operation. *)
Lemma process_command_step (cd : pyval) (c : controller) :
  process_command cd c = (false, c) ∨
  ((process_command cd c).1 = true ∧ device_step c (process_command cd c).2).
Proof.
  destruct cd as [| | | | | |d];
    try (left; apply process_command_no_action; intros; discriminate).
  destruct (d !! "action") as [v|] eqn:Ha; cycle 1.
  { left. apply process_command_no_action. intros d' a [= <-]. by rewrite Ha. }
  destruct v as [| | | |a| |];
    try (left; apply process_command_no_action; intros d' a' [= <-];
         rewrite Ha; discriminate).
  rewrite (process_command_route d a c Ha).
  destruct (route a) as [[[[] id] cmd]|]; [| |by left]; unfold dispatch.
  - destruct (handle_track_command_cases id cmd (PyDict d) c)
      as [->|(t & Ht & Hr & Hc)]; [by left|right].
    split; [done|].
    destruct Hc as [[_ ->]|[[_ ->]|[[_ ->]|(_ & d' & s & _ & _ & ->)]]];
      econstructor; eauto.
  - destruct (handle_switch_command_cases id cmd (PyDict d) c)
      as [->|(s & Hs & Hr & Hc)]; [by left|right].
    split; [done|].
    destruct Hc as [[_ ->]|[_ ->]]; econstructor; eauto.
Qed.

(** ** The direction interlock *)

(** Name the pins of a track or switch of a configured registry. *)
Ltac track_wiring Hc Ht :=
  let cfg := fresh "cfg" in
  let Hin := fresh "Hin" in
  let Hn := fresh "Hnb" in
  let Hs := fresh "Hsb" in
  let Hp := fresh "Hspeed" in
  destruct (configured_track _ _ _ Hc Ht) as (cfg & Hin & _ & Hn & Hs & Hp);
  simpl in Hin;
  destruct Hin as [Hin|[Hin|[Hin|[Hin|[]]]]];
  apply (f_equal snd) in Hin; simpl in Hin; subst cfg; simpl in Hn, Hs, Hp.

Ltac switch_wiring Hc Hs :=
  let Hin := fresh "Hin" in
  destruct (configured_switch _ _ _ Hc Hs) as (Hin & _);
  simpl in Hin;
  destruct Hin as [Hin|[Hin|[]]];
  apply (f_equal snd) in Hin; simpl in Hin;
  injection Hin; intros; clear Hin.

Lemma set_speed_result (t : Track) (s : Z) (g : pi) :
  TrackOps.set_speed t s g =
    (with_speed s t, set_PWM_dutycycle (speed_pin t) s g) ∧ 0 <= s <= 255
  ∨ TrackOps.set_speed t s g = (t, g) ∧ ¬ 0 <= s <= 255.
Proof.
  unfold TrackOps.set_speed.
  destruct ((0 <=? s) && (s <=? 255)) eqn:E; [left|right]; (split; [done|]).
  - apply andb_true_iff in E. lia.
  - apply andb_false_iff in E. lia.
Qed.

Lemma after_set_speed_cases (id : Z) (t : Track) (s : Z) (c : controller) :
  tracks c !! id = Some t →
  after_set_speed id t s c =
    Controller (set_PWM_dutycycle (speed_pin t) s (rpi c))
               (<[id := with_speed s t]> (tracks c)) (switches c)
    ∧ 0 <= s <= 255
  ∨ after_set_speed id t s c = c ∧ ¬ 0 <= s <= 255.
Proof.
  intros Ht. unfold after_set_speed.
  destruct (set_speed_result t s (rpi c)) as [[-> ?]|[-> ?]]; [by left|right].
  split; [|done]. rewrite insert_id by done. by destruct c.
Qed.

Lemma device_step_configured (c c' : controller) :
  configured c → device_step c c' → configured c'.
Proof.
  intros Hc Hstep. destruct Hstep; try exact Hc.
  destruct (after_set_speed_cases id t s c H) as [[-> _]|[-> _]]; [|done].
  destruct Hc as [Ht Hs]. split; cbn [tracks switches]; [|done].
  transitivity (with_speed 0 <$> tracks c); [|done].
  rewrite fmap_insert. apply insert_id.
  rewrite lookup_fmap, H. by destruct t.
Qed.

(** The registry stays the configured one under every command. *)
Lemma process_command_configured (cd : pyval) (c : controller) :
  configured c → configured (process_command cd c).2.
Proof.
  intros Hc. destruct (process_command_step cd c) as [->|[_ Hstep]]; [done|].
  by apply (device_step_configured c).
Qed.

Ltac interlock_cases Hi' :=
  unfold read; cbv beta iota zeta;
  repeat rewrite ?level_write, ?level_sleep, ?level_emit;
  repeat case_decide; try lia;
  first [exact Hi' | by right | by left].

Lemma device_step_interlocked (c c' : controller) :
  configured c → interlocked (tracks c) (rpi c) → device_step c c' →
  interlocked (tracks c') (rpi c').
Proof.
  intros Hc Hi Hstep.
  destruct Hstep as [id t Ht|id t Ht|id t Ht|id t s Ht|id s Hs|id s Hs].
  1-3: intros id' t' Ht'; pose proof (Hi id' t' Ht') as Hi';
       cbn [on_gpio rpi tracks] in *;
       unfold TrackOps.northbound, TrackOps.southbound, TrackOps.stop;
       track_wiring Hc Ht; track_wiring Hc Ht'; interlock_cases Hi'.
  - destruct (after_set_speed_cases id t s c Ht) as [[-> _]|[-> _]]; [|done].
    intros id' t' Ht'. cbn [rpi tracks] in *.
    rewrite lookup_insert in Ht'. case_decide.
    + injection Ht' as <-. apply (Hi _ t Ht).
    + apply (Hi id' t' Ht').
  - intros id' t' Ht'; pose proof (Hi id' t' Ht') as Hi';
      cbn [on_gpio rpi tracks] in *; unfold SwitchOps.direct;
      switch_wiring Hc Hs; track_wiring Hc Ht'; interlock_cases Hi'.
  - intros id' t' Ht'; pose proof (Hi id' t' Ht') as Hi';
      cbn [on_gpio rpi tracks] in *; unfold SwitchOps.diverge;
      switch_wiring Hc Hs; track_wiring Hc Ht'; interlock_cases Hi'.
Qed.

(** C6. On the configured registry, if no track has both [nb_pin] and
    [sb_pin] high, then the same holds after any one of the six device
    operations applied to any registered device, and after any command
    processed by the interpreter. *)
Theorem interlock_preserved (c : controller) :
  configured c → interlocked (tracks c) (rpi c) →
  (∀ id t, tracks c !! id = Some t →
     interlocked (tracks c) (TrackOps.northbound t (rpi c))
     ∧ interlocked (tracks c) (TrackOps.southbound t (rpi c))
     ∧ interlocked (tracks c) (TrackOps.stop t (rpi c))
     ∧ ∀ s, interlocked (<[id := (TrackOps.set_speed t s (rpi c)).1]> (tracks c))
                        (TrackOps.set_speed t s (rpi c)).2)
  ∧ (∀ id s, switches c !! id = Some s →
       interlocked (tracks c) (SwitchOps.direct s (rpi c))
       ∧ interlocked (tracks c) (SwitchOps.diverge s (rpi c)))
  ∧ (∀ cd, interlocked (tracks (process_command cd c).2)
                       (rpi (process_command cd c).2)).
Proof.
  intros Hc Hi. split; [|split].
  - intros id t Ht. repeat split.
    + apply (device_step_interlocked c _ Hc Hi (step_northbound c id t Ht)).
    + apply (device_step_interlocked c _ Hc Hi (step_southbound c id t Ht)).
    + apply (device_step_interlocked c _ Hc Hi (step_stop c id t Ht)).
    + intros s.
      pose proof (device_step_interlocked c _ Hc Hi (step_set_speed c id t s Ht)) as H.
      unfold after_set_speed in H. by destruct (TrackOps.set_speed t s (rpi c)).
  - intros id s Hs. split.
    + apply (device_step_interlocked c _ Hc Hi (step_direct c id s Hs)).
    + apply (device_step_interlocked c _ Hc Hi (step_diverge c id s Hs)).
  - intros cd. destruct (process_command_step cd c) as [->|[_ Hstep]]; [done|].
    by apply (device_step_interlocked c).
Qed.

Lemma interlock_preserved_witness :
  let c := initialize_gpio (write 13 1 power_on) in
  configured c ∧ interlocked (tracks c) (rpi c)
  ∧ interlocked (tracks c) (SwitchOps.diverge (MkSwitch 0 13 16 17) (rpi c))
  ∧ interlocked (tracks c) (TrackOps.southbound (TrackOps.init 2 13 16 17) (rpi c)).
Proof.
  intros c.
  assert (configured c) as Hc by (split; vm_compute; reflexivity).
  assert (interlocked (tracks c) (rpi c)) as Hi
    by (apply (bool_decide_unpack _); vm_compute; exact I).
  assert (switches c !! 0 = Some (MkSwitch 0 13 16 17)) as Hs
    by (vm_compute; reflexivity).
  assert (tracks c !! 2 = Some (TrackOps.init 2 13 16 17)) as Ht
    by (vm_compute; reflexivity).
  destruct (interlock_preserved c Hc Hi) as (Htracks & Hswitches & _).
  destruct (Hswitches 0 _ Hs) as [_ Hdiverge].
  destruct (Htracks 2 _ Ht) as (_ & Hsouth & _).
  exact (conj Hc (conj Hi (conj Hdiverge Hsouth))).
Defined.

(** ** Commands end to end *)

Lemma handle_track_nb_sb_stop (id : Z) (t : Track) (cd : pyval) (c : controller) :
  tracks c !! id = Some t →
  try_except (_handle_track_command id "nb" cd) c
    = (true, on_gpio (TrackOps.northbound t) c)
  ∧ try_except (_handle_track_command id "sb" cd) c
    = (true, on_gpio (TrackOps.southbound t) c)
  ∧ try_except (_handle_track_command id "stop" cd) c
    = (true, on_gpio (TrackOps.stop t) c).
Proof.
  intros Ht. unfold try_except, _handle_track_command. rewrite Ht. done.
Qed.

Lemma handle_track_speed
    (id : Z) (t : Track) (d : gmap string pyval) (s : Z) (c : controller) :
  tracks c !! id = Some t →
  Py.int (default (PyInt DEFAULT_SPEED) (d !! "speed")) = Return s →
  try_except (_handle_track_command id "speed" (PyDict d)) c
    = (true, after_set_speed id t s c).
Proof.
  intros Ht Hs. unfold try_except, _handle_track_command. rewrite Ht.
  cbn [String.eqb Ascii.eqb Bool.eqb]. unfold bind, lift, ret, Py.get.
  rewrite Hs. unfold after_set_speed.
  by destruct (TrackOps.set_speed t s (rpi c)).
Qed.

Lemma configured_track_id (c : controller) (id : Z) (t : Track) :
  configured c → tracks c !! id = Some t → id = 0 ∨ id = 1 ∨ id = 2 ∨ id = 3.
Proof.
  intros Hc Ht. destruct (configured_track c id t Hc Ht) as (cfg & Hin & _).
  simpl in Hin. destruct Hin as [Hin|[Hin|[Hin|[Hin|[]]]]];
    injection Hin; intros; subst; auto.
Qed.

(** A [track<t>_speed] request reaches [set_speed] of track [t] with the
    integer made of the [speed] field, or of the default when there is
    none. *)
Lemma track_speed_command
    (c : controller) (id : Z) (t : Track) (d : gmap string pyval) (s : Z) :
  configured c → tracks c !! id = Some t →
  d !! "action" = Some (PyStr (track_action id "speed")) →
  Py.int (default (PyInt DEFAULT_SPEED) (d !! "speed")) = Return s →
  process_command (PyDict d) c = (true, after_set_speed id t s c).
Proof.
  intros Hc Ht Ha Hs.
  rewrite (process_command_route d _ c Ha).
  destruct (configured_track_id c id t Hc Ht) as [-> | [-> | [-> | -> ]]].
  - change (route (track_action 0 "speed")) with (Some (KTrack, 0, "speed")).
    by apply handle_track_speed.
  - change (route (track_action 1 "speed")) with (Some (KTrack, 1, "speed")).
    by apply handle_track_speed.
  - change (route (track_action 2 "speed")) with (Some (KTrack, 2, "speed")).
    by apply handle_track_speed.
  - change (route (track_action 3 "speed")) with (Some (KTrack, 3, "speed")).
    by apply handle_track_speed.
Qed.

(** A [track<t>_speed] request with an integer speed in range is carried
    out on the addressed track and answered "success". *)
Lemma in_range_speed_end_to_end
    (c : controller) (id : Z) (t : Track) (d : gmap string pyval) (s : Z) :
  configured c → tracks c !! id = Some t →
  0 <= s <= 255 →
  d !! "action" = Some (PyStr (track_action id "speed")) →
  d !! "speed" = Some (PyInt s) →
  handle_connection (Decoded (PyDict d)) c
  = (Some (Response "success"),
     Controller (set_PWM_dutycycle (speed_pin t) s (rpi c))
                (<[id := with_speed s t]> (tracks c)) (switches c)).
Proof.
  intros Hc Ht Hs Ha Hsp. unfold handle_connection.
  rewrite (track_speed_command c id t d s Hc Ht Ha) by (by rewrite Hsp).
  by destruct (after_set_speed_cases id t s c Ht) as [[-> _]|[_ ?]].
Qed.

(** C1. When the speed of a [track<t>_speed] request lies outside [0,255],
    the controller, its pins, duty cycles and trace stay exactly as they
    were, as the specification says; the reply sent is "success", where the
    specification promises "error". *)
Theorem out_of_range_speed_answered_success
    (c : controller) (id : Z) (t : Track) (d : gmap string pyval) (s : Z) :
  configured c → tracks c !! id = Some t →
  ¬ 0 <= s <= 255 →
  d !! "action" = Some (PyStr (track_action id "speed")) →
  d !! "speed" = Some (PyInt s) →
  handle_connection (Decoded (PyDict d)) c = (Some (Response "success"), c).
Proof.
  intros Hc Ht Hs Ha Hsp. unfold handle_connection.
  rewrite (track_speed_command c id t d s Hc Ht Ha) by (by rewrite Hsp).
  destruct (after_set_speed_cases id t s c Ht) as [[_ ?]|[-> _]]; done.
Qed.

Lemma out_of_range_speed_answered_success_witness :
  let c := initialize_gpio power_on in
  let cd := request "track0_speed" (Some (PyInt 300)) in
  configured c ∧ tracks c !! 0 = Some (TrackOps.init 0 4 5 18)
  ∧ ¬ 0 <= 300 <= 255
  ∧ handle_connection (Decoded cd) c = (Some (Response "success"), c).
Proof.
  intros c cd.
  assert (configured c) as Hc by (split; vm_compute; reflexivity).
  assert (tracks c !! 0 = Some (TrackOps.init 0 4 5 18)) as Ht
    by (vm_compute; reflexivity).
  assert (¬ 0 <= 300 <= 255) as Hs by lia.
  refine (conj Hc (conj Ht (conj Hs _))).
  apply (out_of_range_speed_answered_success c 0 _ _ 300 Hc Ht Hs).
  - vm_compute; reflexivity.
  - vm_compute; reflexivity.
Defined.

(** C4, as the code has it.  A [track<t>_speed] request without a [speed]
    field is carried out with [DEFAULT_SPEED] (50): the track's
    [current_speed] becomes 50, one PWM duty-cycle write of 50 goes to its
    [speed_pin], and the reply is "success". *)
Theorem absent_speed_uses_default
    (c : controller) (id : Z) (t : Track) (d : gmap string pyval) :
  configured c → tracks c !! id = Some t →
  d !! "action" = Some (PyStr (track_action id "speed")) →
  d !! "speed" = None →
  ∃ c', handle_connection (Decoded (PyDict d)) c = (Some (Response "success"), c')
        ∧ tracks c' !! id = Some (with_speed 50 t)
        ∧ trace (rpi c') = trace (rpi c) ++ [SetPWMDutycycle (speed_pin t) 50]
        ∧ get_PWM_dutycycle (speed_pin t) (rpi c') = Some 50
        ∧ levels (rpi c') = levels (rpi c).
Proof.
  intros Hc Ht Ha Hsp. unfold handle_connection.
  rewrite (track_speed_command c id t d DEFAULT_SPEED Hc Ht Ha) by (by rewrite Hsp).
  destruct (after_set_speed_cases id t DEFAULT_SPEED c Ht) as [[-> _]|[_ Hno]];
    [|unfold DEFAULT_SPEED in Hno; lia].
  eexists. split; [reflexivity|]. cbn [tracks rpi].
  split; [apply lookup_insert_eq|]. split; [done|]. split; [|done].
  apply lookup_insert_eq.
Qed.

Lemma absent_speed_uses_default_witness :
  let c := initialize_gpio power_on in
  let t := TrackOps.init 1 6 12 19 in
  configured c ∧ tracks c !! 1 = Some t
  ∧ ∃ c', handle_connection (Decoded (request "track1_speed" None)) c
            = (Some (Response "success"), c')
          ∧ tracks c' !! 1 = Some (with_speed 50 t)
          ∧ trace (rpi c') = trace (rpi c) ++ [SetPWMDutycycle (speed_pin t) 50]
          ∧ get_PWM_dutycycle (speed_pin t) (rpi c') = Some 50
          ∧ levels (rpi c') = levels (rpi c).
Proof.
  intros c t.
  assert (configured c) as Hc by (split; vm_compute; reflexivity).
  assert (tracks c !! 1 = Some t) as Ht by (vm_compute; reflexivity).
  refine (conj Hc (conj Ht _)).
  apply (absent_speed_uses_default c 1 t _ Hc Ht).
  - vm_compute; reflexivity.
  - vm_compute; reflexivity.
Defined.

(** C4 does not hold as the specification states it: without a [speed]
    field the command to track 0 is not rejected; it sets the speed to 50
    and writes the PWM pin. *)
Lemma absent_speed_is_executed :
  let c := initialize_gpio power_on in
  let r := handle_connection (Decoded (request "track0_speed" None)) c in
  r.1 = Some (Response "success")
  ∧ current_speed <$> tracks c !! 0 = Some 0
  ∧ current_speed <$> tracks r.2 !! 0 = Some 50
  ∧ trace (rpi r.2) = trace (rpi c) ++ [SetPWMDutycycle 18 50].
Proof. vm_compute. repeat split. Qed.

Lemma digit_val_range (ch : ascii) (d : Z) :
  Py.digit_val ch = Some d → 0 <= d <= 9.
Proof.
  unfold Py.digit_val.
  destruct ((48 <=? _) && (_ <=? 57)) eqn:E; [|discriminate].
  apply andb_true_iff in E. intros [= <-]. lia.
Qed.

(** C3, as the code has it.  A command that is not turned down without
    effect has an action whose text before the first underscore starts
    with [track] or [switch] and ends in a decimal digit; that last
    character is the device id handed to the track handler (prefix [track])
    or the switch handler (prefix [switch]), with the rest of the action as
    the command.  An action whose text before the first underscore starts
    with neither is turned down and leaves the controller as it was. *)
Theorem action_prefix_and_last_digit :
  (∀ cd c,
     process_command cd c ≠ (false, c) →
     ∃ d a device_type ops last device_id,
       cd = PyDict d ∧ d !! "action" = Some (PyStr a)
       ∧ Py.split_str "_" a = device_type :: ops ∧ ops ≠ []
       ∧ Py.last_char device_type = Return last
       ∧ Py.digit_val last = Some device_id ∧ 0 <= device_id <= 9
       ∧ (Py.startswith device_type "track" = true
          ∧ process_command cd c =
              try_except (_handle_track_command device_id (Py.join "_" ops) cd) c
          ∨ Py.startswith device_type "track" = false
            ∧ Py.startswith device_type "switch" = true
            ∧ process_command cd c =
                try_except (_handle_switch_command device_id (Py.join "_" ops) cd) c))
  ∧ (∀ d a c,
       d !! "action" = Some (PyStr a) →
       Py.startswith (hd EmptyString (Py.split_str "_" a)) "track" = false →
       Py.startswith (hd EmptyString (Py.split_str "_" a)) "switch" = false →
       process_command (PyDict d) c = (false, c)).
Proof.
  split.
  - intros cd c Hrun.
    destruct cd as [| | | | | |d];
      try (exfalso; apply Hrun, process_command_no_action; intros; discriminate).
    destruct (d !! "action") as [v|] eqn:Ha; cycle 1.
    { exfalso. apply Hrun, process_command_no_action.
      intros d' a [= <-]. by rewrite Ha. }
    destruct v as [| | | |a| |];
      try (exfalso; apply Hrun, process_command_no_action; intros d' a' [= <-];
           rewrite Ha; discriminate).
    rewrite (process_command_route d a c Ha) in Hrun |- *.
    unfold route in *.
    destruct (Py.split_str "_" a) as [|device_type [|op ops]] eqn:Hsplit;
      [done..|].
    cbn [length Nat.ltb Nat.leb hd tl] in *.
    destruct (Py.last_char device_type) as [last|] eqn:Hlast; [|done].
    destruct (Py.digit_val last) as [device_id|] eqn:Hdigit; [|done].
    exists d, a, device_type, (op :: ops), last, device_id.
    repeat (split; [done|]). split; [by eapply digit_val_range|].
    destruct (Py.startswith device_type "track"); [by left|].
    destruct (Py.startswith device_type "switch"); [by right|done].
  - intros d a c Ha Htrack Hswitch.
    rewrite (process_command_route d a c Ha). unfold route.
    destruct (length _ <? 2)%nat; [done|].
    destruct (Py.last_char _); [|done].
    destruct (Py.digit_val _); [|done].
    by rewrite Htrack, Hswitch.
Qed.

Lemma action_prefix_and_last_digit_witness :
  let c := initialize_gpio (write 4 1 power_on) in
  let cd := request "track0_stop" None in
  (process_command cd c ≠ (false, c)
   ∧ ∃ d a device_type ops last device_id,
       cd = PyDict d ∧ d !! "action" = Some (PyStr a)
       ∧ Py.split_str "_" a = device_type :: ops ∧ ops ≠ []
       ∧ Py.last_char device_type = Return last
       ∧ Py.digit_val last = Some device_id ∧ 0 <= device_id <= 9
       ∧ (Py.startswith device_type "track" = true
          ∧ process_command cd c =
              try_except (_handle_track_command device_id (Py.join "_" ops) cd) c
          ∨ Py.startswith device_type "track" = false
            ∧ Py.startswith device_type "switch" = true
            ∧ process_command cd c =
                try_except (_handle_switch_command device_id (Py.join "_" ops) cd) c))
  ∧ (Py.startswith (hd EmptyString (Py.split_str "_" "bogus1_nb")) "track" = false
     ∧ Py.startswith (hd EmptyString (Py.split_str "_" "bogus1_nb")) "switch" = false
     ∧ process_command (request "bogus1_nb" None) c = (false, c)).
Proof.
  intros c cd.
  assert (process_command cd c ≠ (false, c)) as Hrun
    by (vm_compute; discriminate).
  split.
  - exact (conj Hrun (proj1 action_prefix_and_last_digit cd c Hrun)).
  - assert (Py.startswith (hd EmptyString (Py.split_str "_" "bogus1_nb")) "track"
            = false) as H1 by (vm_compute; reflexivity).
    assert (Py.startswith (hd EmptyString (Py.split_str "_" "bogus1_nb")) "switch"
            = false) as H2 by (vm_compute; reflexivity).
    refine (conj H1 (conj H2 _)).
    apply (proj2 action_prefix_and_last_digit _ "bogus1_nb" c); [|exact H1|exact H2].
    vm_compute; reflexivity.
Defined.

(** C3 does not hold as the specification states it: in [track10_nb] the
    text before the underscore is [track10], not [track] and one digit, and
    the digit after the prefix is 1; the command is carried out all the
    same, on track 0, whose [nb_pin] (4) goes high. *)
Lemma track10_nb_runs_on_track0 :
  let c := initialize_gpio power_on in
  let r := process_command (request "track10_nb" None) c in
  Py.split_str "_" "track10_nb" = ["track10"; "nb"]
  ∧ r.1 = true
  ∧ r.2 = on_gpio (TrackOps.northbound (TrackOps.init 0 4 5 18)) c
  ∧ level 4 (rpi c) = 0 ∧ level 4 (rpi r.2) = 1
  ∧ trace (rpi r.2) = trace (rpi c) ++ [Read 4 0; Write 4 1; Write 5 0].
Proof. vm_compute. repeat split. Qed.

(** ** What one command may change *)

Lemma same_outside_refl (pins : list Z) (g : pi) : same_outside pins g g.
Proof. done. Qed.

Lemma same_outside_write (pins : list Z) (p v : Z) (g g' : pi) :
  p ∈ pins → same_outside pins g g' → same_outside pins g (write p v g').
Proof.
  intros Hp Hsame q Hq. destruct (Hsame q Hq) as [Hl Hd].
  split; [|done]. cbn [write levels].
  rewrite lookup_insert_ne; [done|]. by intros ->.
Qed.

Lemma same_outside_set_PWM_dutycycle (pins : list Z) (p v : Z) (g g' : pi) :
  p ∈ pins → same_outside pins g g' →
  same_outside pins g (set_PWM_dutycycle p v g').
Proof.
  intros Hp Hsame q Hq. destruct (Hsame q Hq) as [Hl Hd].
  split; [done|]. cbn [set_PWM_dutycycle duty].
  rewrite lookup_insert_ne; [done|]. by intros ->.
Qed.

Lemma same_outside_emit (pins : list Z) (c : call) (g g' : pi) :
  same_outside pins g g' → same_outside pins g (emit c g').
Proof. done. Qed.

Create HintDb frame.
#[local] Hint Resolve same_outside_refl same_outside_write
  same_outside_set_PWM_dutycycle same_outside_emit : frame.

Section OperationFrames.
Context (g : pi).

Lemma northbound_frame (t : Track) :
  same_outside (track_pins t) g (TrackOps.northbound t g).
Proof.
  unfold TrackOps.northbound, read, track_pins. cbv beta iota zeta.
  repeat first [apply same_outside_write | apply same_outside_emit];
    auto with frame; set_solver.
Qed.

Lemma southbound_frame (t : Track) :
  same_outside (track_pins t) g (TrackOps.southbound t g).
Proof.
  unfold TrackOps.southbound, read, track_pins. cbv beta iota zeta.
  repeat first [apply same_outside_write | apply same_outside_emit];
    auto with frame; set_solver.
Qed.

Lemma stop_frame (t : Track) : same_outside (track_pins t) g (TrackOps.stop t g).
Proof.
  unfold TrackOps.stop, track_pins.
  repeat apply same_outside_write; auto with frame; set_solver.
Qed.

Lemma set_speed_frame (t : Track) (s : Z) :
  same_outside (track_pins t) g (TrackOps.set_speed t s g).2.
Proof.
  destruct (set_speed_result t s g) as [[-> _]|[-> _]]; cbn [snd];
    [|apply same_outside_refl].
  apply same_outside_set_PWM_dutycycle; auto with frame.
  unfold track_pins; set_solver.
Qed.

Lemma direct_frame (s : Switch) :
  same_outside (switch_pins s) g (SwitchOps.direct s g).
Proof.
  unfold SwitchOps.direct, sleep, switch_pins.
  repeat first [apply same_outside_write | apply same_outside_emit];
    auto with frame; set_solver.
Qed.

Lemma diverge_frame (s : Switch) :
  same_outside (switch_pins s) g (SwitchOps.diverge s g).
Proof.
  unfold SwitchOps.diverge, sleep, switch_pins.
  repeat first [apply same_outside_write | apply same_outside_emit];
    auto with frame; set_solver.
Qed.

End OperationFrames.

(** A command that is not turned down goes to the handler of the device it
    addresses. *)
Lemma process_command_addressed (cd : pyval) (c : controller) :
  process_command cd c = (false, c)
  ∨ ∃ id cmd,
      addresses cd KTrack id
      ∧ process_command cd c = try_except (_handle_track_command id cmd cd) c
      ∨ addresses cd KSwitch id
        ∧ process_command cd c = try_except (_handle_switch_command id cmd cd) c.
Proof.
  destruct cd as [| | | | | |d];
    try (left; apply process_command_no_action; intros; discriminate).
  destruct (d !! "action") as [v|] eqn:Ha; cycle 1.
  { left. apply process_command_no_action. intros d' a [= <-]. by rewrite Ha. }
  destruct v as [| | | |a| |];
    try (left; apply process_command_no_action; intros d' a' [= <-];
         rewrite Ha; discriminate).
  rewrite (process_command_route d a c Ha). unfold route.
  destruct (Py.split_str "_" a) as [|device_type ops] eqn:Hsplit; [by left|].
  destruct (length (device_type :: ops) <? 2)%nat; [by left|]. cbn [hd tl].
  destruct (Py.last_char device_type) as [last|] eqn:Hlast; [|by left].
  destruct (Py.digit_val last) as [id|] eqn:Hdigit; [|by left].
  destruct (Py.startswith device_type "track") eqn:Htrack.
  - right. exists id, (Py.join "_" ops). left. split; [|done].
    exists d, a, device_type, ops, last. by repeat split.
  - destruct (Py.startswith device_type "switch") eqn:Hswitch; [|by left].
    right. exists id, (Py.join "_" ops). right. split; [|done].
    exists d, a, device_type, ops, last. by repeat split.
Qed.

(** The device addressed is the only one whose handler can run. *)
Lemma addressed_dispatch (cd : pyval) (k : kind) (id : Z) (c : controller) :
  addresses cd k id →
  process_command cd c = (false, c)
  ∨ ∃ cmd, process_command cd c =
           match k with
           | KTrack => try_except (_handle_track_command id cmd cd) c
           | KSwitch => try_except (_handle_switch_command id cmd cd) c
           end.
Proof.
  intros (d & a & device_type & ops & last & -> & Ha & Hsplit & Hlast & Hdigit & Hk).
  rewrite (process_command_route d a c Ha). unfold route. rewrite Hsplit.
  destruct (length (device_type :: ops) <? 2)%nat; [by left|]. cbn [hd tl].
  rewrite Hlast, Hdigit. right. exists (Py.join "_" ops).
  destruct k; [by rewrite Hk|]. destruct Hk as [-> ->]. done.
Qed.

Lemma same_outside_untouched (pins others : list Z) (g g' : pi) :
  same_outside pins g g' → (∀ p, p ∈ others → p ∉ pins) → untouched others g g'.
Proof. intros Hsame Hdisjoint p Hp. by apply Hsame, Hdisjoint. Qed.

Lemma untouched_refl (pins : list Z) (g : pi) : untouched pins g g.
Proof. done. Qed.

Ltac registered_track Hc Ht :=
  let cfg := fresh "cfg" in
  let Hin := fresh "Hin" in
  let Hw := fresh "Hw" in
  destruct (configured_track _ _ _ Hc Ht) as (cfg & Hin & _ & Hw);
  simpl in Hin; destruct Hin as [Hin|[Hin|[Hin|[Hin|[]]]]];
  injection Hin as <- <-; destruct Hw as (? & ? & ?); simpl in *.

Ltac registered_switch Hc Hs :=
  let Hin := fresh "Hin" in
  destruct (configured_switch _ _ _ Hc Hs) as (Hin & _);
  simpl in Hin; destruct Hin as [Hin|[Hin|[]]];
  injection Hin; intros; subst.

Ltac pins_apart :=
  unfold not; intros; unfold track_pins, switch_pins in *;
  repeat match goal with
         | H : _ ∈ _ |- _ => rewrite ?elem_of_cons, ?elem_of_nil in H; revert H
         end;
  lia.

Lemma track_pins_apart (c : controller) (id id' : Z) (t t' : Track) :
  configured c → tracks c !! id = Some t → tracks c !! id' = Some t' →
  id' ≠ id → ∀ p, p ∈ track_pins t' → p ∉ track_pins t.
Proof.
  intros Hc Ht Ht' Hne.
  registered_track Hc Ht; registered_track Hc Ht'; try done; pins_apart.
Qed.

Lemma switch_pins_apart (c : controller) (id id' : Z) (s s' : Switch) :
  configured c → switches c !! id = Some s → switches c !! id' = Some s' →
  id' ≠ id → ∀ p, p ∈ switch_pins s' → p ∉ switch_pins s.
Proof.
  intros Hc Hs Hs' Hne.
  registered_switch Hc Hs; registered_switch Hc Hs'; try done; pins_apart.
Qed.

Lemma track_switch_pins_apart (c : controller) (id sid : Z) (t : Track) (s : Switch) :
  configured c → tracks c !! id = Some t → switches c !! sid = Some s →
  id ≠ sid + 2 →
  (∀ p, p ∈ track_pins t → p ∉ switch_pins s)
  ∧ (∀ p, p ∈ switch_pins s → p ∉ track_pins t).
Proof.
  intros Hc Ht Hs Hne.
  registered_track Hc Ht; registered_switch Hc Hs; try lia; split; pins_apart.
Qed.

(** C2, as the code has it.  One command either changes nothing or runs
    exactly one operation, on the device the command addresses: the track
    or switch named by the text before the first underscore of its action.
    It changes levels and duty cycles only on the pins held by that device,
    changes no other device's fields, and on a track at most
    [current_speed].  On the configured registry a track command leaves
    the pins of every other track and of every switch but the one wired to
    the same pins (switch [t - 2]) as they were, and a switch command
    leaves the pins of the other switch and of every track but the one
    wired to the same pins (track [s + 2]) as they were. *)
Theorem command_changes_only_addressed_pins (cd : pyval) (c : controller) :
  let c' := (process_command cd c).2 in
  (c' = c
   ∨ (∃ id t, addresses cd KTrack id ∧ tracks c !! id = Some t
        ∧ (c' = Controller (TrackOps.northbound t (rpi c)) (tracks c) (switches c)
           ∨ c' = Controller (TrackOps.southbound t (rpi c)) (tracks c) (switches c)
           ∨ c' = Controller (TrackOps.stop t (rpi c)) (tracks c) (switches c)
           ∨ ∃ s, c' = Controller (TrackOps.set_speed t s (rpi c)).2
                         (<[id := (TrackOps.set_speed t s (rpi c)).1]> (tracks c))
                         (switches c))
        ∧ same_outside (track_pins t) (rpi c) (rpi c')
        ∧ (∃ sp, tracks c' = <[id := with_speed sp t]> (tracks c))
        ∧ switches c' = switches c)
   ∨ (∃ id s, addresses cd KSwitch id ∧ switches c !! id = Some s
        ∧ (c' = Controller (SwitchOps.direct s (rpi c)) (tracks c) (switches c)
           ∨ c' = Controller (SwitchOps.diverge s (rpi c)) (tracks c) (switches c))
        ∧ same_outside (switch_pins s) (rpi c) (rpi c')
        ∧ tracks c' = tracks c
        ∧ switches c' = switches c))
  ∧ (configured c →
     (∀ id, addresses cd KTrack id →
        (∀ id' t', id' ≠ id → tracks c !! id' = Some t' →
                   untouched (track_pins t') (rpi c) (rpi c'))
        ∧ (∀ sid s, id ≠ sid + 2 → switches c !! sid = Some s →
                    untouched (switch_pins s) (rpi c) (rpi c')))
     ∧ (∀ id, addresses cd KSwitch id →
          (∀ sid s, sid ≠ id → switches c !! sid = Some s →
                    untouched (switch_pins s) (rpi c) (rpi c'))
          ∧ (∀ id' t', id' ≠ id + 2 → tracks c !! id' = Some t' →
                       untouched (track_pins t') (rpi c) (rpi c')))).
Proof.
  intros c'. subst c'.
  assert (∀ id t, tracks c !! id = Some t →
                  tracks c = <[id := with_speed (current_speed t) t]> (tracks c))
    as Hkeep.
  { intros id t Ht. by rewrite with_speed_current, insert_id. }
  assert (∀ id cmd,
            try_except (_handle_track_command id cmd cd) c = (false, c)
            ∨ ∃ t, tracks c !! id = Some t
                ∧ same_outside (track_pins t) (rpi c)
                    (rpi (try_except (_handle_track_command id cmd cd) c).2))
    as Htrack.
  { intros id cmd.
    destruct (handle_track_command_cases id cmd cd c)
      as [Hrej|(t & Ht & _ & Hop)]; [by left|right].
    exists t. split; [done|].
    destruct Hop as [[_ ->]|[[_ ->]|[[_ ->]|(_ & d & s & _ & _ & ->)]]].
    - apply northbound_frame.
    - apply southbound_frame.
    - apply stop_frame.
    - unfold after_set_speed.
      pose proof (set_speed_frame (rpi c) t s) as Hf.
      by destruct (TrackOps.set_speed t s (rpi c)). }
  assert (∀ id cmd,
            try_except (_handle_switch_command id cmd cd) c = (false, c)
            ∨ ∃ s, switches c !! id = Some s
                ∧ same_outside (switch_pins s) (rpi c)
                    (rpi (try_except (_handle_switch_command id cmd cd) c).2))
    as Hswitch.
  { intros id cmd.
    destruct (handle_switch_command_cases id cmd cd c)
      as [Hrej|(s & Hs & _ & Hop)]; [by left|right].
    exists s. split; [done|].
    destruct Hop as [[_ ->]|[_ ->]]; [apply direct_frame|apply diverge_frame]. }
  split.
  - destruct (process_command_addressed cd c)
      as [->|(id & cmd & [[Haddr ->]|[Haddr ->]])]; [by left| |].
    + destruct (handle_track_command_cases id cmd cd c)
        as [->|(t & Ht & _ & Hop)]; [by left|].
      right; left. exists id, t. split; [done|]. split; [done|].
      destruct Hop as [[_ ->]|[[_ ->]|[[_ ->]|(_ & d & s & _ & _ & ->)]]].
      * split; [by left|]. split; [apply northbound_frame|].
        split; [exists (current_speed t); by apply Hkeep|done].
      * split; [by right; left|]. split; [apply southbound_frame|].
        split; [exists (current_speed t); by apply Hkeep|done].
      * split; [by do 2 right; left|]. split; [apply stop_frame|].
        split; [exists (current_speed t); by apply Hkeep|done].
      * unfold after_set_speed.
        pose proof (set_speed_frame (rpi c) t s) as Hf.
        destruct (set_speed_result t s (rpi c)) as [[Hset _]|[Hset _]];
          rewrite Hset in Hf |- *; cbn [fst snd rpi tracks switches] in *.
        -- split; [do 3 right; exists s; by rewrite Hset|].
           split; [done|]. split; [by exists s|done].
        -- split; [do 3 right; exists s; by rewrite Hset|].
           split; [done|].
           split; [exists (current_speed t); by rewrite with_speed_current|done].
    + destruct (handle_switch_command_cases id cmd cd c)
        as [->|(s & Hs & _ & Hop)]; [by left|].
      do 2 right. exists id, s. split; [done|]. split; [done|].
      destruct Hop as [[_ ->]|[_ ->]].
      * split; [by left|]. split; [apply direct_frame|done].
      * split; [by right|]. split; [apply diverge_frame|done].
  - intros Hc. split; intros id Haddr.
    + destruct (addressed_dispatch cd KTrack id c Haddr) as [->|[cmd ->]];
        [split; intros; apply untouched_refl|].
      destruct (Htrack id cmd) as [->|(t & Ht & Hframe)];
        [split; intros; apply untouched_refl|].
      split.
      * intros id' t' Hne Ht'. apply (same_outside_untouched _ _ _ _ Hframe).
        by apply (track_pins_apart c id id' t t').
      * intros sid s Hne Hs. apply (same_outside_untouched _ _ _ _ Hframe).
        by apply (track_switch_pins_apart c id sid t s).
    + destruct (addressed_dispatch cd KSwitch id c Haddr) as [->|[cmd ->]];
        [split; intros; apply untouched_refl|].
      destruct (Hswitch id cmd) as [->|(s & Hs & Hframe)];
        [split; intros; apply untouched_refl|].
      split.
      * intros sid s' Hne Hs'. apply (same_outside_untouched _ _ _ _ Hframe).
        by apply (switch_pins_apart c id sid s s').
      * intros id' t' Hne Ht'. apply (same_outside_untouched _ _ _ _ Hframe).
        by apply (track_switch_pins_apart c id' id t' s).
Qed.

Lemma command_changes_only_addressed_pins_witness :
  let c := initialize_gpio power_on in
  let cd := request "switch0_direct" None in
  let c' := (process_command cd c).2 in
  configured c ∧ addresses cd KSwitch 0
  ∧ tracks c !! 1 = Some (TrackOps.init 1 6 12 19)
  ∧ switches c !! 1 = Some (MkSwitch 1 22 23 24)
  ∧ untouched (track_pins (TrackOps.init 1 6 12 19)) (rpi c) (rpi c')
  ∧ untouched (switch_pins (MkSwitch 1 22 23 24)) (rpi c) (rpi c').
Proof.
  intros c cd c'.
  assert (configured c) as Hc by (split; vm_compute; reflexivity).
  assert (addresses cd KSwitch 0) as Haddr.
  { exists {["action" := PyStr "switch0_direct"]}, "switch0_direct",
      "switch0", ["direct"], "0"%char.
    repeat split; vm_compute; reflexivity. }
  assert (tracks c !! 1 = Some (TrackOps.init 1 6 12 19)) as Ht
    by (vm_compute; reflexivity).
  assert (switches c !! 1 = Some (MkSwitch 1 22 23 24)) as Hs
    by (vm_compute; reflexivity).
  destruct (command_changes_only_addressed_pins cd c) as [_ Hconf].
  destruct (Hconf Hc) as [_ Hsw]. destruct (Hsw 0 Haddr) as [Hother Htracks].
  refine (conj Hc (conj Haddr (conj Ht (conj Hs (conj _ _))))).
  - apply (Htracks 1); [lia|exact Ht].
  - apply (Hother 1); [lia|exact Hs].
Defined.

(** C2 does not hold as the specification states it: pin 13 is the
    [nb_pin] of track 2 and the [direct_pin] of switch 0, and pin 16 the
    [sb_pin] of the one and the [diverge_pin] of the other.  The command
    [switch0_direct] addresses switch 0 and raises the [nb_pin] of track 2;
    [switch0_diverge] then lowers it and raises the track's [sb_pin]. *)
Lemma switch0_command_drives_track2_pins :
  let c := initialize_gpio power_on in
  let t2 := TrackOps.init 2 13 16 17 in
  let c1 := (process_command (request "switch0_direct" None) c).2 in
  let c2 := (process_command (request "switch0_diverge" None) c1).2 in
  tracks c !! 2 = Some t2
  ∧ switches c !! 0 = Some (MkSwitch 0 13 16 17)
  ∧ (level (nb_pin t2) (rpi c) = 0 ∧ level (sb_pin t2) (rpi c) = 0)
  ∧ (level (nb_pin t2) (rpi c1) = 1 ∧ level (sb_pin t2) (rpi c1) = 0)
  ∧ (level (nb_pin t2) (rpi c2) = 0 ∧ level (sb_pin t2) (rpi c2) = 1).
Proof. vm_compute. repeat split. Qed.

(** ** Replies *)

(** C5, as the code has it.  A connection that times out, delivers no data
    or delivers bytes that do not decode is closed without a reply and
    without touching the controller.  A request that decodes but is not an
    object with a string under [action] (the key is missing, say) is
    answered with "error", again without touching the controller. *)
Theorem reply_on_protocol_error (c : controller) :
  handle_connection TimedOut c = (None, c)
  ∧ handle_connection NoData c = (None, c)
  ∧ handle_connection Undecodable c = (None, c)
  ∧ ∀ cd, (∀ d a, cd = PyDict d → d !! "action" ≠ Some (PyStr a)) →
          handle_connection (Decoded cd) c = (Some (Response "error"), c).
Proof.
  repeat split. intros cd Hno. unfold handle_connection.
  by rewrite (process_command_no_action cd c Hno).
Qed.

Lemma reply_on_protocol_error_witness :
  let c := initialize_gpio power_on in
  let cd := PyDict {["speed" := PyInt 10]} in
  (∀ d a, cd = PyDict d → d !! "action" ≠ Some (PyStr a))
  ∧ handle_connection (Decoded cd) c = (Some (Response "error"), c).
Proof.
  intros c cd.
  assert (∀ d a, cd = PyDict d → d !! "action" ≠ Some (PyStr a)) as Hno.
  { intros d a [= <-]. vm_compute. discriminate. }
  split; [exact Hno|].
  destruct (reply_on_protocol_error c) as (_ & _ & _ & Herr).
  exact (Herr cd Hno).
Defined.

(** C5 does not hold as the specification states it: the request [{}] has
    no [action] key, and the server does send a status reply, "error",
    before closing. *)
Lemma missing_action_is_answered :
  let c := initialize_gpio power_on in
  handle_connection (Decoded (PyDict ∅)) c = (Some (Response "error"), c).
Proof. vm_compute. reflexivity. Qed.

Lemma track0_stop_command (c : controller) (t0 : Track) (d : gmap string pyval) :
  tracks c !! 0 = Some t0 →
  d !! "action" = Some (PyStr "track0_stop") →
  process_command (PyDict d) c = (true, on_gpio (TrackOps.stop t0) c).
Proof.
  intros Ht Ha. rewrite (process_command_route d _ c Ha).
  change (route "track0_stop") with (Some (KTrack, 0, "stop")).
  apply (handle_track_nb_sb_stop 0 t0 (PyDict d) c Ht).
Qed.

(** C9. On every track of the registry [stop] writes 0 to [nb_pin] and then
    0 to [sb_pin], whatever they held; a second [stop] leaves the levels and
    duty cycles the first one produced.  End to end, a request whose action
    is [track0_stop] is answered "success" from any state of the configured
    controller, and leaves pins 4 and 5, the [nb_pin] and [sb_pin] of track
    0, at 0. *)
Theorem stop_idempotent_end_to_end (c : controller) :
  configured c →
  (∀ id t g, tracks c !! id = Some t →
     trace (TrackOps.stop t g) = trace g ++ [Write (nb_pin t) 0; Write (sb_pin t) 0]
     ∧ level (nb_pin t) (TrackOps.stop t g) = 0
     ∧ level (sb_pin t) (TrackOps.stop t g) = 0
     ∧ levels (TrackOps.stop t (TrackOps.stop t g)) = levels (TrackOps.stop t g)
     ∧ duty (TrackOps.stop t (TrackOps.stop t g)) = duty (TrackOps.stop t g))
  ∧ (∀ d, d !! "action" = Some (PyStr "track0_stop") →
       ∃ t0 c', tracks c !! 0 = Some t0 ∧ nb_pin t0 = 4 ∧ sb_pin t0 = 5
                ∧ handle_connection (Decoded (PyDict d)) c
                  = (Some (Response "success"), c')
                ∧ level (nb_pin t0) (rpi c') = 0
                ∧ level (sb_pin t0) (rpi c') = 0).
Proof.
  intros Hc. split.
  - intros id t g _.
    auto using stop_trace, stop_nb, stop_sb, stop_levels_idempotent, stop_duty.
  - intros d Ha.
    destruct (configured_has_track c 0 (TrackConfig 4 5 18) Hc)
      as (t0 & Ht0 & _ & Hnb & Hsb & _); [simpl; auto|].
    exists t0, (on_gpio (TrackOps.stop t0) c).
    repeat (split; [done|]). unfold handle_connection.
    rewrite (track0_stop_command c t0 d Ht0 Ha). split; [done|].
    cbn [on_gpio rpi]. split; [apply stop_nb|apply stop_sb].
Qed.

Lemma stop_idempotent_end_to_end_witness :
  let c := initialize_gpio (write 5 1 (write 4 1 power_on)) in
  let cd := request "track0_stop" None in
  configured c
  ∧ level 4 (rpi c) = 1 ∧ level 5 (rpi c) = 1
  ∧ ∃ t0 c', tracks c !! 0 = Some t0 ∧ nb_pin t0 = 4 ∧ sb_pin t0 = 5
             ∧ handle_connection (Decoded cd) c = (Some (Response "success"), c')
             ∧ level (nb_pin t0) (rpi c') = 0
             ∧ level (sb_pin t0) (rpi c') = 0.
Proof.
  intros c cd.
  assert (configured c) as Hc by (split; vm_compute; reflexivity).
  refine (conj Hc (conj _ (conj _ _))); [vm_compute; reflexivity..|].
  destruct (stop_idempotent_end_to_end c Hc) as [_ Hend].
  apply Hend. vm_compute; reflexivity.
Defined.

(** ** The accept loop *)

(** A connection that brings no command does not disturb the ones after
    it. *)
Lemma serve_after_silence (r : received) (rs : list received) (c : controller) :
  (∀ cd, r ≠ Decoded cd) →
  serve (r :: rs) c = (None :: (serve rs c).1, (serve rs c).2).
Proof.
  intros Hr. cbn [serve].
  destruct r as [| | |cd]; [| | |by destruct (Hr cd)];
    cbn [handle_connection]; by destruct (serve rs c).
Qed.

Lemma serve_length (rs : list received) (c : controller) :
  length (serve rs c).1 = length rs.
Proof.
  revert c. induction rs as [|r rs IH]; intros c; [done|].
  cbn [serve]. destruct (handle_connection r c) as [reply c'].
  specialize (IH c'). destruct (serve rs c') as [replies c'']. simpl in *.
  by rewrite IH.
Qed.

(** * Further properties of the device layer *)

Lemma southbound_sb (t : Track) (g : pi) :
  nb_pin t ≠ sb_pin t →
  level (sb_pin t) (TrackOps.southbound t g) = 1 - level (sb_pin t) g.
Proof.
  intros Hne. unfold TrackOps.southbound, read; cbv beta iota zeta.
  rewrite !level_write, level_emit.
  repeat case_decide; try done.
  by destruct (level_bit g (sb_pin t)) as [-> | ->].
Qed.

(** X1. [southbound] issues three calls: it reads [sb_pin], writes the
    complement of the level read back to [sb_pin], then writes 0 to
    [nb_pin].  On every track of the registry a second call restores the
    level [sb_pin] had before the first and never leaves it where the first
    call put it. *)
Theorem southbound_toggle_law (c : controller) (id : Z) (t : Track) (g : pi) :
  configured c → tracks c !! id = Some t →
  trace (TrackOps.southbound t g) =
    trace g ++ [Read (sb_pin t) (level (sb_pin t) g);
                Write (sb_pin t) (1 - level (sb_pin t) g); Write (nb_pin t) 0]
  ∧ level (sb_pin t) (TrackOps.southbound t g) = 1 - level (sb_pin t) g
  ∧ level (nb_pin t) (TrackOps.southbound t g) = 0
  ∧ level (sb_pin t) (TrackOps.southbound t (TrackOps.southbound t g))
    = level (sb_pin t) g
  ∧ level (sb_pin t) (TrackOps.southbound t (TrackOps.southbound t g))
    ≠ level (sb_pin t) (TrackOps.southbound t g).
Proof.
  intros Hc Ht. pose proof (configured_nb_sb c id t Hc Ht) as Hne.
  split; [apply southbound_trace|].
  split; [by apply southbound_sb|].
  split; [apply southbound_nb|].
  rewrite !southbound_sb by done.
  destruct (level_bit g (sb_pin t)) as [-> | ->]; split; lia.
Qed.

Lemma southbound_toggle_law_witness :
  let c := initialize_gpio (write 12 1 power_on) in
  let t := TrackOps.init 1 6 12 19 in
  configured c ∧ tracks c !! 1 = Some t
  ∧ level (sb_pin t) (rpi c) = 1
  ∧ level (sb_pin t) (TrackOps.southbound t (rpi c)) = 0
  ∧ level (sb_pin t) (TrackOps.southbound t (TrackOps.southbound t (rpi c))) = 1.
Proof.
  intros c t.
  assert (configured c) as Hc by (split; vm_compute; reflexivity).
  assert (tracks c !! 1 = Some t) as Ht by (vm_compute; reflexivity).
  destruct (southbound_toggle_law c 1 t (rpi c) Hc Ht) as (_ & H1 & _ & H2 & _).
  assert (level (sb_pin t) (rpi c) = 1) as H0 by (vm_compute; reflexivity).
  rewrite H0 in H1, H2.
  exact (conj Hc (conj Ht (conj H0 (conj H1 H2)))).
Defined.

(** X2. Changing direction is absolute although each direction command
    toggles: on every track of the registry and from every pin state,
    [northbound] issued after [southbound] or after [stop] ends with
    [nb_pin] high and [sb_pin] low, and [southbound] issued after
    [northbound] or after [stop] ends with [sb_pin] high and [nb_pin]
    low. *)
Theorem direction_change_is_absolute
    (c : controller) (id : Z) (t : Track) (g : pi) :
  configured c → tracks c !! id = Some t →
  (level (nb_pin t) (TrackOps.northbound t (TrackOps.southbound t g)) = 1
   ∧ level (sb_pin t) (TrackOps.northbound t (TrackOps.southbound t g)) = 0)
  ∧ (level (nb_pin t) (TrackOps.northbound t (TrackOps.stop t g)) = 1
     ∧ level (sb_pin t) (TrackOps.northbound t (TrackOps.stop t g)) = 0)
  ∧ (level (sb_pin t) (TrackOps.southbound t (TrackOps.northbound t g)) = 1
     ∧ level (nb_pin t) (TrackOps.southbound t (TrackOps.northbound t g)) = 0)
  ∧ (level (sb_pin t) (TrackOps.southbound t (TrackOps.stop t g)) = 1
     ∧ level (nb_pin t) (TrackOps.southbound t (TrackOps.stop t g)) = 0).
Proof.
  intros Hc Ht. pose proof (configured_nb_sb c id t Hc Ht) as Hne.
  rewrite !northbound_nb, !southbound_sb by done.
  rewrite !northbound_sb, !southbound_nb, stop_nb, stop_sb.
  repeat split; lia.
Qed.

Lemma direction_change_is_absolute_witness :
  let c := initialize_gpio (write 23 1 (write 22 1 power_on)) in
  let t := TrackOps.init 3 22 23 24 in
  let g := rpi c in
  configured c ∧ tracks c !! 3 = Some t
  ∧ (level (nb_pin t) g = 1 ∧ level (sb_pin t) g = 1)
  ∧ (level (nb_pin t) (TrackOps.northbound t (TrackOps.southbound t g)) = 1
     ∧ level (sb_pin t) (TrackOps.northbound t (TrackOps.southbound t g)) = 0).
Proof.
  intros c t g.
  assert (configured c) as Hc by (split; vm_compute; reflexivity).
  assert (tracks c !! 3 = Some t) as Ht by (vm_compute; reflexivity).
  refine (conj Hc (conj Ht (conj _ _))); [split; vm_compute; reflexivity|].
  exact (proj1 (direction_change_is_absolute c 3 t g Hc Ht)).
Defined.

Lemma levels_write (p v : Z) (g : pi) :
  levels (write p v g) = <[p := negb (v =? 0)]> (levels g).
Proof. reflexivity. Qed.

Lemma direct_levels (s : Switch) (g : pi) :
  levels (SwitchOps.direct s g) =
  <[trigger_pin s := false]>
    (<[trigger_pin s := true]>
       (<[diverge_pin s := false]> (<[direct_pin s := true]> (levels g)))).
Proof. reflexivity. Qed.

Lemma diverge_levels (s : Switch) (g : pi) :
  levels (SwitchOps.diverge s g) =
  <[trigger_pin s := false]>
    (<[trigger_pin s := true]>
       (<[diverge_pin s := true]> (<[direct_pin s := false]> (levels g)))).
Proof. reflexivity. Qed.

(** X3. A switch position is absolute: for every switch and pin state the
    levels left by [direct] or [diverge] do not depend on which of the two
    ran before, so repeating a command or overriding the other one gives
    the levels of the last command alone.  On the switches of the registry
    [direct] leaves [direct_pin] high and [diverge_pin] low, [diverge] the
    opposite. *)
Theorem switch_position_is_absolute (s : Switch) (g : pi) :
  (levels (SwitchOps.direct s (SwitchOps.direct s g)) = levels (SwitchOps.direct s g)
   ∧ levels (SwitchOps.direct s (SwitchOps.diverge s g)) = levels (SwitchOps.direct s g)
   ∧ levels (SwitchOps.diverge s (SwitchOps.diverge s g)) = levels (SwitchOps.diverge s g)
   ∧ levels (SwitchOps.diverge s (SwitchOps.direct s g)) = levels (SwitchOps.diverge s g))
  ∧ ∀ c id, configured c → switches c !! id = Some s →
      (level (direct_pin s) (SwitchOps.direct s g) = 1
       ∧ level (diverge_pin s) (SwitchOps.direct s g) = 0)
      ∧ (level (direct_pin s) (SwitchOps.diverge s g) = 0
         ∧ level (diverge_pin s) (SwitchOps.diverge s g) = 1).
Proof.
  split.
  - repeat split; apply map_eq; intros p;
      repeat (rewrite ?direct_levels, ?diverge_levels, ?lookup_insert;
              repeat case_decide; try done).
  - intros c id Hc Hs. switch_wiring Hc Hs.
    all: repeat split; unfold SwitchOps.direct, SwitchOps.diverge;
      repeat rewrite ?level_write, ?level_sleep;
      repeat case_decide; try lia; done.
Qed.

Lemma switch_position_is_absolute_witness :
  let c := initialize_gpio (write 16 1 power_on) in
  let s := MkSwitch 0 13 16 17 in
  configured c ∧ switches c !! 0 = Some s
  ∧ (level (direct_pin s) (SwitchOps.direct s (rpi c)) = 1
     ∧ level (diverge_pin s) (SwitchOps.direct s (rpi c)) = 0)
  ∧ (level (direct_pin s) (SwitchOps.diverge s (rpi c)) = 0
     ∧ level (diverge_pin s) (SwitchOps.diverge s (rpi c)) = 1).
Proof.
  intros c s.
  assert (configured c) as Hc by (split; vm_compute; reflexivity).
  assert (switches c !! 0 = Some s) as Hs by (vm_compute; reflexivity).
  destruct (switch_position_is_absolute s (rpi c)) as (_ & Hpos).
  exact (conj Hc (conj Hs (Hpos c 0 Hc Hs))).
Defined.

(** * Further properties of the command interpreter *)

Lemma split_str_nonempty (sep : ascii) (s : string) : Py.split_str sep s ≠ [].
Proof.
  destruct s as [|ch s]; [done|]. cbn [Py.split_str].
  destruct (Ascii.eqb ch sep); [done|]. by destruct (Py.split_str sep s).
Qed.

Lemma split_str_without (sep : ascii) (s : string) :
  contains sep s = false → Py.split_str sep s = [s].
Proof.
  induction s as [|ch s IH]; [done|]. cbn [contains Py.split_str].
  destruct (Ascii.eqb ch sep); [done|]. intros Hs. by rewrite (IH Hs).
Qed.

Lemma split_str_first (sep : ascii) (s rest : string) :
  contains sep s = false →
  Py.split_str sep (s +:+ String sep rest) = s :: Py.split_str sep rest.
Proof.
  induction s as [|ch s IH]; simpl.
  - by rewrite Ascii.eqb_refl.
  - destruct (Ascii.eqb ch sep); [done|]. intros Hs. by rewrite (IH Hs).
Qed.

Lemma join_split_str (sep : ascii) (s : string) :
  Py.join (String sep EmptyString) (Py.split_str sep s) = s.
Proof.
  unfold Py.join. induction s as [|ch s IH]; [done|]. cbn [Py.split_str].
  pose proof (split_str_nonempty sep s) as Hne.
  destruct (Ascii.eqb_spec ch sep) as [->|_].
  - destruct (Py.split_str sep s) as [|p ps]; [done|].
    change (String.concat (String sep "") ("" :: p :: ps))
      with (String sep (String.concat (String sep "") (p :: ps))).
    by rewrite IH.
  - destruct (Py.split_str sep s) as [|p ps]; [done|].
    rewrite <- IH. by destruct ps.
Qed.

Lemma route_first_underscore (dt cmd : string) (ch : ascii) (id : Z) :
  contains "_" dt = false →
  Py.last_char dt = Return ch →
  Py.digit_val ch = Some id →
  route (dt +:+ String "_" cmd) =
    if Py.startswith dt "track" then Some (KTrack, id, cmd)
    else if Py.startswith dt "switch" then Some (KSwitch, id, cmd)
    else None.
Proof.
  intros Hdt Hlast Hdigit. unfold route.
  rewrite (split_str_first "_" dt cmd Hdt).
  pose proof (split_str_nonempty "_" cmd) as Hne.
  cbn [hd tl]. rewrite Hlast, Hdigit, (join_split_str "_" cmd).
  by destruct (Py.split_str "_" cmd) as [|p ps].
Qed.

(** X4. The command handed to a handler is the whole text after the first
    underscore of the action, further underscores included, and the device
    id is the last character before that underscore.  An action
    [dt ++ "_" ++ cmd] whose part [dt] has no underscore and ends in a
    decimal digit goes to the track handler when [dt] starts with [track],
    else to the switch handler when it starts with [switch], and is turned
    down otherwise. *)
Theorem command_is_text_after_first_underscore
    (d : gmap string pyval) (dt cmd : string) (ch : ascii) (id : Z)
    (c : controller) :
  d !! "action" = Some (PyStr (dt +:+ String "_" cmd)) →
  contains "_" dt = false →
  Py.last_char dt = Return ch →
  Py.digit_val ch = Some id →
  process_command (PyDict d) c =
    if Py.startswith dt "track" then
      try_except (_handle_track_command id cmd (PyDict d)) c
    else if Py.startswith dt "switch" then
      try_except (_handle_switch_command id cmd (PyDict d)) c
    else (false, c).
Proof.
  intros Ha Hdt Hlast Hdigit.
  rewrite (process_command_route d _ c Ha).
  rewrite (route_first_underscore dt cmd ch id Hdt Hlast Hdigit).
  destruct (Py.startswith dt "track"); [done|].
  by destruct (Py.startswith dt "switch").
Qed.

Lemma command_is_text_after_first_underscore_witness :
  let c := initialize_gpio power_on in
  let cd := request "track2_speed_up" (Some (PyInt 9)) in
  Py.startswith "track2" "track" = true
  ∧ process_command cd c = try_except (_handle_track_command 2 "speed_up" cd) c
  ∧ process_command cd c = (false, c).
Proof.
  intros c cd.
  assert (process_command cd c
          = if Py.startswith "track2" "track" then
              try_except (_handle_track_command 2 "speed_up" cd) c
            else if Py.startswith "track2" "switch" then
              try_except (_handle_switch_command 2 "speed_up" cd) c
            else (false, c)) as H.
  { apply (command_is_text_after_first_underscore _ "track2" "speed_up" "2" 2 c);
      vm_compute; reflexivity. }
  split; [vm_compute; reflexivity|]. split; [exact H|].
  vm_compute; reflexivity.
Defined.

(** X5. An action without an underscore, the empty string included, is
    turned down and leaves the controller as it was. *)
Theorem action_without_underscore_rejected
    (d : gmap string pyval) (a : string) (c : controller) :
  d !! "action" = Some (PyStr a) →
  contains "_" a = false →
  process_command (PyDict d) c = (false, c).
Proof.
  intros Ha Hno. rewrite (process_command_route d a c Ha). unfold route.
  by rewrite (split_str_without "_" a Hno).
Qed.

Lemma action_without_underscore_rejected_witness :
  let c := initialize_gpio power_on in
  contains "_" "track0stop" = false
  ∧ process_command (request "track0stop" None) c = (false, c).
Proof.
  intros c.
  assert (contains "_" "track0stop" = false) as Hno by (vm_compute; reflexivity).
  split; [exact Hno|].
  apply (action_without_underscore_rejected _ "track0stop" c); [|exact Hno].
  vm_compute; reflexivity.
Defined.

Lemma handle_track_speed_raises
    (id : Z) (t : Track) (d : gmap string pyval) (e : exn) (c : controller) :
  tracks c !! id = Some t →
  Py.int (default (PyInt DEFAULT_SPEED) (d !! "speed")) = Raise e →
  try_except (_handle_track_command id "speed" (PyDict d)) c = (false, c).
Proof.
  intros Ht He. unfold try_except, _handle_track_command. rewrite Ht.
  cbn [String.eqb Ascii.eqb Bool.eqb]. unfold bind, lift, ret, Py.get.
  by rewrite He.
Qed.

(** X6. The track handler accepts a command exactly when the track id is
    registered and the command is [nb], [sb], [stop], or [speed] with a
    speed (the field, or the default when it is absent) that [int]
    converts; every command it does not accept leaves the controller as it
    was. *)
Theorem track_command_accepted_iff
    (id : Z) (cmd : string) (d : gmap string pyval) (c : controller) :
  let r := try_except (_handle_track_command id cmd (PyDict d)) c in
  (r.1 = true ↔
   is_Some (tracks c !! id)
   ∧ (cmd = "nb" ∨ cmd = "sb" ∨ cmd = "stop"
      ∨ cmd = "speed"
        ∧ ∃ s, Py.int (default (PyInt DEFAULT_SPEED) (d !! "speed")) = Return s))
  ∧ (r.1 = false → r.2 = c).
Proof.
  intros r. subst r. split; [split|].
  - intros Hr.
    destruct (handle_track_command_cases id cmd (PyDict d) c)
      as [H|(t & Ht & _ & Hc)]; [by rewrite H in Hr|].
    split; [by rewrite Ht|].
    destruct Hc as [[-> _]|[[-> _]|[[-> _]|(-> & d' & s & [= <-] & Hs & _)]]];
      eauto 10.
  - intros [[t Ht] Hcmd].
    destruct (handle_track_nb_sb_stop id t (PyDict d) c Ht) as (Hn & Hs & Hst).
    destruct Hcmd as [->|[->|[->|[-> [s Hint]]]]].
    + by rewrite Hn.
    + by rewrite Hs.
    + by rewrite Hst.
    + by rewrite (handle_track_speed id t d s c Ht Hint).
  - intros Hr.
    destruct (handle_track_command_cases id cmd (PyDict d) c)
      as [H|(t & _ & Htrue & _)]; [by rewrite H|].
    by rewrite Htrue in Hr.
Qed.

(** X7. The switch handler accepts a command exactly when the switch id is
    registered and the command is [direct] or [diverge]; every command it
    does not accept leaves the controller as it was. *)
Theorem switch_command_accepted_iff
    (id : Z) (cmd : string) (cd : pyval) (c : controller) :
  let r := try_except (_handle_switch_command id cmd cd) c in
  (r.1 = true ↔
   is_Some (switches c !! id) ∧ (cmd = "direct" ∨ cmd = "diverge"))
  ∧ (r.1 = false → r.2 = c).
Proof.
  intros r. subst r. split; [split|].
  - intros Hr.
    destruct (handle_switch_command_cases id cmd cd c)
      as [H|(s & Hs & _ & Hc)]; [by rewrite H in Hr|].
    split; [by rewrite Hs|]. destruct Hc as [[-> _]|[-> _]]; auto.
  - intros [[s Hs] Hcmd].
    unfold try_except, _handle_switch_command. rewrite Hs.
    by destruct Hcmd as [->| ->].
  - intros Hr.
    destruct (handle_switch_command_cases id cmd cd c)
      as [H|(s & _ & Htrue & _)]; [by rewrite H|].
    by rewrite Htrue in Hr.
Qed.

(** X8. The [speed] field of a [track<t>_speed] request goes through
    [int]: a value that converts (an integer, a boolean, a float, a decimal
    string) is handed to [set_speed] of the addressed track and answered
    "success"; a value that does not (null, a list, an object, other text,
    NaN or an infinity) is answered "error" and nothing is touched. *)
Theorem speed_field_goes_through_int
    (c : controller) (id : Z) (t : Track) (d : gmap string pyval) (v : pyval) :
  configured c → tracks c !! id = Some t →
  d !! "action" = Some (PyStr (track_action id "speed")) →
  d !! "speed" = Some v →
  handle_connection (Decoded (PyDict d)) c =
    match Py.int v with
    | Return s => (Some (Response "success"), after_set_speed id t s c)
    | Raise _ => (Some (Response "error"), c)
    end.
Proof.
  intros Hc Ht Ha Hv. unfold handle_connection.
  destruct (Py.int v) as [s|e] eqn:Hint.
  - by rewrite (track_speed_command c id t d s Hc Ht Ha) by (by rewrite Hv).
  - rewrite (process_command_route d _ c Ha).
    assert (route (track_action id "speed") = Some (KTrack, id, "speed")) as ->.
    { by destruct (configured_track_id c id t Hc Ht) as [-> | [-> | [-> | -> ]]]. }
    cbn [dispatch].
    by rewrite (handle_track_speed_raises id t d e c Ht) by (by rewrite Hv).
Qed.

Lemma speed_field_goes_through_int_witness :
  let c := initialize_gpio power_on in
  let t := TrackOps.init 2 13 16 17 in
  configured c ∧ tracks c !! 2 = Some t
  ∧ handle_connection (Decoded (request "track2_speed" (Some (PyStr " 200 ")))) c
    = (Some (Response "success"), after_set_speed 2 t 200 c)
  ∧ handle_connection (Decoded (request "track2_speed" (Some PyNone))) c
    = (Some (Response "error"), c).
Proof.
  intros c t.
  assert (configured c) as Hc by (split; vm_compute; reflexivity).
  assert (tracks c !! 2 = Some t) as Ht by (vm_compute; reflexivity).
  refine (conj Hc (conj Ht (conj _ _))).
  - apply (speed_field_goes_through_int c 2 t _ (PyStr " 200 ") Hc Ht);
      vm_compute; reflexivity.
  - apply (speed_field_goes_through_int c 2 t _ PyNone Hc Ht);
      vm_compute; reflexivity.
Defined.

(** * Start-up and shutdown *)

Section TraceFacts.
Context (g : pi).

Lemma trace_emit (cl : call) : trace (emit cl g) = trace g ++ [cl].
Proof. reflexivity. Qed.

Lemma trace_set_mode_output (p : Z) :
  trace (set_mode_output p g) = trace g ++ [SetModeOutput p].
Proof. reflexivity. Qed.

Lemma trace_set_pull_up (p : Z) : trace (set_pull_up p g) = trace g ++ [SetPullUp p].
Proof. reflexivity. Qed.

Lemma trace_set_PWM_frequency (p f : Z) :
  trace (set_PWM_frequency p f g) = trace g ++ [SetPWMFrequency p f].
Proof. reflexivity. Qed.

Lemma trace_set_PWM_dutycycle (p d : Z) :
  trace (set_PWM_dutycycle p d g) = trace g ++ [SetPWMDutycycle p d].
Proof. reflexivity. Qed.

Lemma trace_write (p v : Z) : trace (write p v g) = trace g ++ [Write p v].
Proof. reflexivity. Qed.

End TraceFacts.

Lemma initialize_gpio_trace (g : pi) :
  trace (rpi (initialize_gpio g)) = trace g ++ init_calls.
Proof.
  unfold initialize_gpio, init_track, init_switch, TRACK_CONFIG, SWITCH_CONFIG.
  cbn [fold_left rpi tracks switches cfg_nb cfg_sb cfg_speed cfg_direct
       cfg_diverge cfg_trigger].
  repeat rewrite ?trace_set_mode_output, ?trace_set_pull_up,
    ?trace_set_PWM_frequency, ?trace_set_PWM_dutycycle.
  rewrite <- !app_assoc. reflexivity.
Qed.

Lemma initialize_gpio_duty (g : pi) :
  duty (rpi (initialize_gpio g)) =
  <[24 := 0]> (<[17 := 0]> (<[19 := 0]> (<[18 := 0]> (duty g)))).
Proof. reflexivity. Qed.

Lemma initialize_gpio_issues (g : pi) (cl : call) :
  In cl init_calls → In cl (trace (rpi (initialize_gpio g))).
Proof. intros Hcl. rewrite initialize_gpio_trace. apply in_or_app. by right. Qed.

Lemma initialize_gpio_track_entry (g : pi) (id : Z) (cfg : track_config) :
  In (id, cfg) TRACK_CONFIG →
  tracks (initialize_gpio g) !! id
    = Some (MkTrack id (cfg_nb cfg) (cfg_sb cfg) (cfg_speed cfg) 0)
  ∧ get_PWM_dutycycle (cfg_speed cfg) (rpi (initialize_gpio g)) = Some 0.
Proof.
  intros Hin. simpl in Hin.
  destruct Hin as [Hin|[Hin|[Hin|[Hin|[]]]]]; injection Hin as <- <-.
  all: cbn [cfg_nb cfg_sb cfg_speed].
  all: split; [by rewrite tracks_initialize_gpio|].
  all: unfold get_PWM_dutycycle; rewrite initialize_gpio_duty.
  all: rewrite !lookup_insert; repeat case_decide; first [done | lia].
Qed.

Lemma initialize_gpio_switch_entry (g : pi) (id : Z) (cfg : switch_config) :
  In (id, cfg) SWITCH_CONFIG →
  switches (initialize_gpio g) !! id
    = Some (MkSwitch id (cfg_direct cfg) (cfg_diverge cfg) (cfg_trigger cfg)).
Proof.
  intros Hin. simpl in Hin.
  destruct Hin as [Hin|[Hin|[]]]; injection Hin as <- <-.
  all: cbn [cfg_direct cfg_diverge cfg_trigger].
  all: by rewrite switches_initialize_gpio.
Qed.

(** Every pin of an entry of the tables is made an output with a pull-up
    by the calls of start-up, and every speed pin gets the PWM
    frequency. *)
Lemma init_calls_cover_tracks (id : Z) (cfg : track_config) :
  In (id, cfg) TRACK_CONFIG →
  In (SetPWMFrequency (cfg_speed cfg) PWM_FREQUENCY) init_calls
  ∧ ∀ p, In p [cfg_nb cfg; cfg_sb cfg; cfg_speed cfg] →
         In (SetModeOutput p) init_calls ∧ In (SetPullUp p) init_calls.
Proof.
  intros Hin. simpl in Hin.
  destruct Hin as [Hin|[Hin|[Hin|[Hin|[]]]]]; injection Hin as <- <-.
  all: cbn [cfg_nb cfg_sb cfg_speed].
  all: split; [vm_compute; tauto|].
  all: intros p Hp; simpl in Hp.
  all: repeat (destruct Hp as [<-|Hp]; [split; vm_compute; tauto|]); done.
Qed.

Lemma init_calls_cover_switches (id : Z) (cfg : switch_config) :
  In (id, cfg) SWITCH_CONFIG →
  ∀ p, In p [cfg_direct cfg; cfg_diverge cfg; cfg_trigger cfg] →
       In (SetModeOutput p) init_calls ∧ In (SetPullUp p) init_calls.
Proof.
  intros Hin. simpl in Hin.
  destruct Hin as [Hin|[Hin|[]]]; injection Hin as <- <-.
  all: cbn [cfg_direct cfg_diverge cfg_trigger].
  all: intros p Hp; simpl in Hp.
  all: repeat (destruct Hp as [<-|Hp]; [split; vm_compute; tauto|]); done.
Qed.

(** X9. [initialize_gpio] registers exactly the four tracks and the two
    switches of [TRACK_CONFIG] and [SWITCH_CONFIG], each under its id with
    the pins of its entry, every track with [current_speed] 0.  From any
    state of the daemon it issues, in the order of the tables, for every
    pin of every device and for the status indicator the change to output
    mode followed by the pull-up, and for every speed pin after these the
    duty cycle 0 and the PWM frequency; it issues no level write, and the
    duty cycle last set on every speed pin is 0. *)
Theorem initialize_gpio_prepares_pins (g : pi) :
  let c := initialize_gpio g in
  (∀ id cfg, In (id, cfg) TRACK_CONFIG →
     tracks c !! id
       = Some (MkTrack id (cfg_nb cfg) (cfg_sb cfg) (cfg_speed cfg) 0)
     ∧ get_PWM_dutycycle (cfg_speed cfg) (rpi c) = Some 0
     ∧ In (SetPWMFrequency (cfg_speed cfg) PWM_FREQUENCY) (trace (rpi c))
     ∧ ∀ p, In p [cfg_nb cfg; cfg_sb cfg; cfg_speed cfg] →
            In (SetModeOutput p) (trace (rpi c))
            ∧ In (SetPullUp p) (trace (rpi c)))
  ∧ (∀ id cfg, In (id, cfg) SWITCH_CONFIG →
       switches c !! id
         = Some (MkSwitch id (cfg_direct cfg) (cfg_diverge cfg) (cfg_trigger cfg))
       ∧ ∀ p, In p [cfg_direct cfg; cfg_diverge cfg; cfg_trigger cfg] →
              In (SetModeOutput p) (trace (rpi c))
              ∧ In (SetPullUp p) (trace (rpi c)))
  ∧ size (tracks c) = 4%nat ∧ size (switches c) = 2%nat
  ∧ trace (rpi c) = trace g ++ init_calls
  ∧ writes_no_level init_calls = true
  ∧ In (SetModeOutput STATUS_INDICATOR) (trace (rpi c))
  ∧ In (SetPullUp STATUS_INDICATOR) (trace (rpi c)).
Proof.
  intros c. subst c.
  split.
  { intros id cfg Hin.
    destruct (initialize_gpio_track_entry g id cfg Hin) as [Htrack Hduty].
    destruct (init_calls_cover_tracks id cfg Hin) as [Hfreq Hpins].
    split; [exact Htrack|]. split; [exact Hduty|].
    split; [by apply initialize_gpio_issues|].
    intros p Hp. destruct (Hpins p Hp).
    split; by apply initialize_gpio_issues. }
  split.
  { intros id cfg Hin. split; [by apply initialize_gpio_switch_entry|].
    intros p Hp. destruct (init_calls_cover_switches id cfg Hin p Hp).
    split; by apply initialize_gpio_issues. }
  split; [rewrite tracks_initialize_gpio; vm_compute; reflexivity|].
  split; [rewrite switches_initialize_gpio; vm_compute; reflexivity|].
  split; [apply initialize_gpio_trace|].
  split; [vm_compute; reflexivity|].
  split; apply initialize_gpio_issues; vm_compute; tauto.
Qed.

Lemma cleanup_track_registered (c : controller) (id : Z) (t : Track) :
  tracks c !! id = Some t →
  cleanup_track c id =
  Controller (set_PWM_dutycycle (speed_pin t) 0 (TrackOps.stop t (rpi c)))
             (<[id := with_speed 0 t]> (tracks c)) (switches c).
Proof. intros Ht. unfold cleanup_track. by rewrite Ht. Qed.

Lemma cleanup_track_unregistered (c : controller) (id : Z) :
  tracks c !! id = None → cleanup_track c id = c.
Proof. intros Ht. unfold cleanup_track. by rewrite Ht. Qed.

Lemma level_stays_low (p q : Z) (g : pi) :
  level p g = 0 → level p (write q 0 g) = 0.
Proof. intros Hp. rewrite level_write. by case_decide. Qed.

Lemma cleanup_track_configured (c : controller) (id : Z) :
  configured c → configured (cleanup_track c id).
Proof.
  intros Hc. destruct (tracks c !! id) as [t|] eqn:Ht;
    [|by rewrite cleanup_track_unregistered].
  rewrite (cleanup_track_registered c id t Ht).
  destruct Hc as [Htr Hsw]. split; cbn [tracks switches]; [|done].
  transitivity (with_speed 0 <$> tracks c); [|done].
  rewrite fmap_insert. apply insert_id.
  rewrite lookup_fmap, Ht. by destruct t.
Qed.

Lemma cleanup_track_rests (c : controller) (id : Z) :
  is_Some (tracks c !! id) → at_rest id (cleanup_track c id).
Proof.
  intros [t Ht]. rewrite (cleanup_track_registered c id t Ht).
  exists (with_speed 0 t). cbn [tracks rpi]. split; [apply lookup_insert_eq|].
  split; [done|]. cbn [with_speed nb_pin sb_pin speed_pin].
  rewrite !level_set_PWM_dutycycle, stop_nb, stop_sb.
  repeat split. unfold get_PWM_dutycycle; simpl. apply lookup_insert_eq.
Qed.

Lemma cleanup_track_keeps_rest (c : controller) (id id' : Z) :
  at_rest id c → at_rest id (cleanup_track c id').
Proof.
  intros Hrest.
  destruct (decide (id' = id)) as [->|Hne].
  { apply cleanup_track_rests. destruct Hrest as (t & Ht & _). by rewrite Ht. }
  destruct (tracks c !! id') as [t'|] eqn:Ht';
    [|by rewrite cleanup_track_unregistered].
  rewrite (cleanup_track_registered c id' t' Ht').
  destruct Hrest as (t & Ht & Hsp & Hnb & Hsb & Hduty).
  exists t. cbn [tracks rpi]. split; [by rewrite lookup_insert_ne|].
  split; [done|]. rewrite !level_set_PWM_dutycycle. unfold TrackOps.stop.
  split; [by do 2 apply level_stays_low|].
  split; [by do 2 apply level_stays_low|].
  unfold get_PWM_dutycycle in *; simpl.
  rewrite lookup_insert. by case_decide.
Qed.

Lemma cleanup_tracks_configured (ids : list Z) (c : controller) :
  configured c → configured (fold_left cleanup_track ids c).
Proof.
  revert c. induction ids as [|id ids IH]; intros c Hc; [done|].
  cbn [fold_left]. by apply IH, cleanup_track_configured.
Qed.

Lemma cleanup_tracks_keep_rest (ids : list Z) (id : Z) (c : controller) :
  at_rest id c → at_rest id (fold_left cleanup_track ids c).
Proof.
  revert c. induction ids as [|id' ids IH]; intros c Hrest; [done|].
  cbn [fold_left]. by apply IH, cleanup_track_keeps_rest.
Qed.

Lemma cleanup_track_registry (c : controller) (id id' : Z) :
  is_Some (tracks c !! id) → is_Some (tracks (cleanup_track c id') !! id).
Proof.
  intros Hid. destruct (tracks c !! id') as [t'|] eqn:Ht';
    [|by rewrite cleanup_track_unregistered].
  rewrite (cleanup_track_registered c id' t' Ht'). cbn [tracks].
  rewrite lookup_insert. by case_decide.
Qed.

Lemma cleanup_tracks_rest (ids : list Z) (id : Z) (c : controller) :
  In id ids → is_Some (tracks c !! id) →
  at_rest id (fold_left cleanup_track ids c).
Proof.
  revert c. induction ids as [|id' ids IH]; intros c Hin Hid; [done|].
  cbn [fold_left]. destruct (decide (id' = id)) as [->|Hne].
  - by apply cleanup_tracks_keep_rest, cleanup_track_rests.
  - destruct Hin as [?|Hin]; [done|]. by apply IH, cleanup_track_registry.
Qed.

Lemma cleanup_configured (c : controller) : configured c → configured (cleanup c).
Proof.
  intros Hc.
  pose proof (cleanup_tracks_configured (map fst TRACK_CONFIG) c Hc) as [? ?].
  by split.
Qed.

Lemma cleanup_rests (c : controller) (id : Z) :
  configured c → is_Some (tracks c !! id) → at_rest id (cleanup c).
Proof.
  intros Hc [t Ht].
  assert (In id (map fst TRACK_CONFIG)) as Hin.
  { destruct (configured_track_id c id t Hc Ht) as [-> | [-> | [-> | -> ]]];
      simpl; auto. }
  destruct (cleanup_tracks_rest _ id c Hin (ex_intro _ t Ht))
    as (t' & Ht' & Hsp & Hnb & Hsb & Hduty).
  exists t'. unfold cleanup. cbn [tracks rpi].
  repeat (split; [done|]).
  split; [by apply level_stays_low|]. split; [by apply level_stays_low|done].
Qed.

Lemma configured_registered (c c' : controller) (id : Z) :
  configured c → configured c' →
  is_Some (tracks c' !! id) → is_Some (tracks c !! id).
Proof.
  intros Hc Hc' [t Ht].
  destruct (configured_track_id _ id t Hc' Ht) as [-> | [-> | [-> | -> ]]].
  - by destruct (configured_has_track c 0 (TrackConfig 4 5 18) Hc) as (? & -> & _);
      [simpl; auto|].
  - by destruct (configured_has_track c 1 (TrackConfig 6 12 19) Hc) as (? & -> & _);
      [simpl; auto|].
  - by destruct (configured_has_track c 2 (TrackConfig 13 16 17) Hc) as (? & -> & _);
      [simpl; auto|].
  - by destruct (configured_has_track c 3 (TrackConfig 22 23 24) Hc) as (? & -> & _);
      [simpl; auto|].
Qed.

Lemma cleanup_interlocked (c : controller) :
  configured c → interlocked (tracks (cleanup c)) (rpi (cleanup c)).
Proof.
  intros Hc id t Ht.
  assert (is_Some (tracks c !! id)) as Hid.
  { apply (configured_registered c (cleanup c)); [done| |by rewrite Ht].
    by apply cleanup_configured. }
  destruct (cleanup_rests c id Hc Hid) as (t' & Ht' & _ & Hnb & _).
  rewrite Ht in Ht'. injection Ht' as <-. by left.
Qed.

(** X10. [cleanup] brings every registered track to rest, whatever state
    the controller was in: both direction pins read 0, [current_speed] is 0
    and the duty cycle last set on [speed_pin] is 0.  The status indicator
    reads 0, no track has both direction pins high, and the registry is
    still the configured one. *)
Theorem cleanup_stops_every_track (c : controller) :
  configured c →
  configured (cleanup c)
  ∧ (∀ id, is_Some (tracks c !! id) → at_rest id (cleanup c))
  ∧ level STATUS_INDICATOR (rpi (cleanup c)) = 0
  ∧ interlocked (tracks (cleanup c)) (rpi (cleanup c)).
Proof.
  intros Hc.
  split; [by apply cleanup_configured|].
  split; [intros id; by apply cleanup_rests|].
  split; [unfold cleanup; cbn [rpi]; rewrite level_write; by case_decide|].
  by apply cleanup_interlocked.
Qed.

Lemma cleanup_stops_every_track_witness :
  let c := (process_command (request "track1_speed" (Some (PyInt 180)))
              (initialize_gpio (write 12 1 (write 6 1 power_on)))).2 in
  configured c
  ∧ (level 6 (rpi c) = 1 ∧ level 12 (rpi c) = 1
     ∧ current_speed <$> tracks c !! 1 = Some 180)
  ∧ at_rest 1 (cleanup c).
Proof.
  intros c.
  assert (configured c) as Hc by (split; vm_compute; reflexivity).
  refine (conj Hc (conj _ _)); [repeat split; vm_compute; reflexivity|].
  destruct (cleanup_stops_every_track c Hc) as (_ & Hrest & _).
  apply Hrest. vm_compute. eauto.
Defined.

(** * The accept loop over many connections *)

Lemma serve_cons (r : received) (rs : list received) (c : controller) :
  serve (r :: rs) c =
  ((handle_connection r c).1 :: (serve rs (handle_connection r c).2).1,
   (serve rs (handle_connection r c).2).2).
Proof.
  cbn [serve]. destruct (handle_connection r c) as [reply c']. cbn [fst snd].
  destruct (serve rs c') as [replies c'']. reflexivity.
Qed.

Lemma handle_connection_state (r : received) (c : controller) :
  (handle_connection r c).2 = c
  ∨ ∃ cd, r = Decoded cd ∧ (handle_connection r c).2 = (process_command cd c).2.
Proof.
  destruct r as [| | |cd]; try by left.
  right. exists cd. split; [done|]. cbn [handle_connection].
  by destruct (process_command cd c).
Qed.

(** X13. The registry and the direction interlock survive any sequence of
    connections: if the controller is the configured one and no track has
    both direction pins high, the same holds after serving the
    connections, whatever they bring. *)
Theorem serve_keeps_interlock (rs : list received) (c : controller) :
  configured c → interlocked (tracks c) (rpi c) →
  configured (serve rs c).2
  ∧ interlocked (tracks (serve rs c).2) (rpi (serve rs c).2).
Proof.
  revert c. induction rs as [|r rs IH]; intros c Hc Hi; [done|].
  rewrite serve_cons. cbn [snd]. apply IH.
  - destruct (handle_connection_state r c) as [->|(cd & _ & ->)]; [done|].
    by apply process_command_configured.
  - destruct (handle_connection_state r c) as [->|(cd & _ & ->)]; [done|].
    destruct (process_command_step cd c) as [->|[_ Hstep]]; [done|].
    by apply (device_step_interlocked c).
Qed.

Lemma serve_keeps_interlock_witness :
  let c := initialize_gpio (write 5 1 power_on) in
  let rs := [Decoded (request "track0_nb" None); TimedOut;
             Decoded (request "switch0_diverge" None);
             Decoded (request "track2_nb" None)] in
  configured c ∧ interlocked (tracks c) (rpi c)
  ∧ configured (serve rs c).2
  ∧ interlocked (tracks (serve rs c).2) (rpi (serve rs c).2).
Proof.
  intros c rs.
  assert (configured c) as Hc by (split; vm_compute; reflexivity).
  assert (interlocked (tracks c) (rpi c)) as Hi
    by (apply (bool_decide_unpack _); vm_compute; exact I).
  exact (conj Hc (conj Hi (serve_keeps_interlock rs c Hc Hi))).
Defined.

Lemma configured_speed_pins (c : controller) (id id' : Z) (t t' : Track) :
  configured c → tracks c !! id = Some t → tracks c !! id' = Some t' →
  id ≠ id' → speed_pin t ≠ speed_pin t'.
Proof.
  intros Hc Ht Ht' Hne.
  destruct (configured_track c id t Hc Ht) as (cfg & Hin & _ & _ & _ & Hsp).
  destruct (configured_track c id' t' Hc Ht') as (cfg' & Hin' & _ & _ & _ & Hsp').
  simpl in Hin, Hin'.
  destruct Hin as [Hin|[Hin|[Hin|[Hin|[]]]]],
           Hin' as [Hin'|[Hin'|[Hin'|[Hin'|[]]]]];
    injection Hin as <- <-; injection Hin' as <- <-;
    simpl in Hsp, Hsp'; first [done | lia].
Qed.

Lemma initialize_gpio_speeds_mirrored (g : pi) : speeds_mirrored (initialize_gpio g).
Proof.
  intros id t Ht. unfold get_PWM_dutycycle.
  rewrite initialize_gpio_duty. rewrite tracks_initialize_gpio in Ht.
  repeat (rewrite lookup_insert in Ht; case_decide; simplify_eq).
  all: cbn [TrackOps.init current_speed speed_pin].
  all: split; [lia|]; rewrite !lookup_insert; repeat case_decide;
    first [done | lia].
Qed.

Lemma device_step_speeds_mirrored (c c' : controller) :
  configured c → speeds_mirrored c → device_step c c' → speeds_mirrored c'.
Proof.
  intros Hc Hm Hstep.
  destruct Hstep as [id t Ht|id t Ht|id t Ht|id t s Ht|id s Hs|id s Hs];
    try exact Hm.
  destruct (after_set_speed_cases id t s c Ht) as [[-> Hs]|[-> _]]; [|done].
  intros id' t' Ht'. cbn [tracks rpi] in *. unfold get_PWM_dutycycle in *.
  cbn [set_PWM_dutycycle duty].
  rewrite lookup_insert in Ht'. case_decide.
  - injection Ht' as <-. cbn [with_speed current_speed speed_pin].
    split; [done|]. apply lookup_insert_eq.
  - destruct (Hm id' t' Ht') as [Hrange Hduty]. split; [done|].
    rewrite lookup_insert_ne; [done|].
    by apply (configured_speed_pins c id id' t t').
Qed.

(** X14. Starting from [initialize_gpio] and whatever the connections
    bring, every track's [current_speed] stays within 0..255 and is the
    value of the last duty-cycle write issued for its [speed_pin]. *)
Theorem speeds_stay_mirrored (g : pi) (rs : list received) :
  speeds_mirrored (serve rs (initialize_gpio g)).2.
Proof.
  assert (∀ rs c, configured c → speeds_mirrored c →
                  speeds_mirrored (serve rs c).2) as Hserve.
  { clear rs. intros rs. induction rs as [|r rs IH]; intros c Hc Hm; [done|].
    rewrite serve_cons. cbn [snd].
    destruct (handle_connection_state r c) as [->|(cd & _ & ->)]; [by apply IH|].
    apply IH; [by apply process_command_configured|].
    destruct (process_command_step cd c) as [->|[_ Hstep]]; [done|].
    by apply (device_step_speeds_mirrored c). }
  apply Hserve; [apply initialize_gpio_configured|].
  apply initialize_gpio_speeds_mirrored.
Qed.

Lemma device_step_calls (c c' : controller) :
  device_step c c' →
  ∃ calls, trace (rpi c') = trace (rpi c) ++ calls
           ∧ forallb runtime_call calls = true
           ∧ (length calls <= 5)%nat.
Proof.
  intros [id t Ht|id t Ht|id t Ht|id t s Ht|id s Hs|id s Hs].
  - eexists. split; [apply northbound_trace|]. split; [done|simpl; lia].
  - eexists. split; [apply southbound_trace|]. split; [done|simpl; lia].
  - eexists. split; [apply stop_trace|]. split; [done|simpl; lia].
  - destruct (after_set_speed_cases id t s c Ht) as [[-> _]|[-> _]].
    + eexists. split; [reflexivity|]. split; [done|simpl; lia].
    + exists []. split; [by rewrite app_nil_r|]. split; [done|simpl; lia].
  - eexists. split; [apply direct_trace|]. split; [done|simpl; lia].
  - eexists. split; [apply diverge_trace|]. split; [done|simpl; lia].
Qed.

(** X15. The trace only grows, and after start-up only by run-time calls:
    a command appends at most five calls, all of them reads, level writes,
    duty-cycle writes or the sleep of a switch pulse, and none at all when
    it is turned down; no sequence of connections ever changes a pin mode,
    a pull-up or the PWM frequency. *)
Theorem commands_never_reconfigure :
  (∀ cd c, ∃ calls,
      trace (rpi (process_command cd c).2) = trace (rpi c) ++ calls
      ∧ forallb runtime_call calls = true
      ∧ (length calls <= 5)%nat
      ∧ ((process_command cd c).1 = false → calls = []))
  ∧ (∀ rs c, ∃ calls,
       trace (rpi (serve rs c).2) = trace (rpi c) ++ calls
       ∧ forallb runtime_call calls = true).
Proof.
  assert (∀ cd c, ∃ calls,
      trace (rpi (process_command cd c).2) = trace (rpi c) ++ calls
      ∧ forallb runtime_call calls = true
      ∧ (length calls <= 5)%nat
      ∧ ((process_command cd c).1 = false → calls = [])) as Hcmd.
  { intros cd c. destruct (process_command_step cd c) as [->|[Htrue Hstep]].
    - exists []. cbn [fst snd]. split; [by rewrite app_nil_r|].
      repeat split; simpl; lia.
    - destruct (device_step_calls c _ Hstep) as (calls & Htr & Hrt & Hlen).
      exists calls. repeat (split; [done|]). by rewrite Htrue. }
  split; [exact Hcmd|].
  intros rs. induction rs as [|r rs IH]; intros c.
  - exists []. by rewrite app_nil_r.
  - rewrite serve_cons. cbn [snd].
    destruct (IH (handle_connection r c).2) as (calls2 & Htr2 & Hrt2).
    destruct (handle_connection_state r c) as [Hsame|(cd & _ & Hcd)].
    + exists calls2. by rewrite Htr2, Hsame.
    + destruct (Hcmd cd c) as (calls1 & Htr1 & Hrt1 & _).
      exists (calls1 ++ calls2). rewrite Htr2, Hcd, Htr1, app_assoc.
      split; [done|]. rewrite forallb_app. by rewrite Hrt1, Hrt2.
Qed.

(** X16. When the server shuts down after any sequence of connections, the
    replies sent are those of the accept loop and every registered track is
    at rest: both direction pins read 0, [current_speed] is 0 and the duty
    cycle last set on [speed_pin] is 0; the status indicator reads 0. *)
Theorem start_server_ends_at_rest (rs : list received) (c : controller) :
  configured c →
  (start_server rs c).1 = (serve rs c).1
  ∧ configured (start_server rs c).2
  ∧ (∀ id, is_Some (tracks (start_server rs c).2 !! id) →
           at_rest id (start_server rs c).2)
  ∧ level STATUS_INDICATOR (rpi (start_server rs c).2) = 0.
Proof.
  intros Hc.
  assert (configured (serve rs c).2) as Hc'.
  { clear -Hc. revert c Hc. induction rs as [|r rs IH]; intros c Hc; [done|].
    rewrite serve_cons. cbn [snd]. apply IH.
    destruct (handle_connection_state r c) as [->|(cd & _ & ->)]; [done|].
    by apply process_command_configured. }
  unfold start_server. destruct (serve rs c) as [replies c']. cbn [fst snd] in *.
  split; [done|]. split; [by apply cleanup_configured|].
  split.
  - intros id Hid. apply cleanup_rests; [done|].
    apply (configured_registered c' (cleanup c')); [done| |done].
    by apply cleanup_configured.
  - unfold cleanup; cbn [rpi]. rewrite level_write. by case_decide.
Qed.

Lemma start_server_ends_at_rest_witness :
  let c := initialize_gpio power_on in
  let rs := [Decoded (request "track3_nb" None);
             Decoded (request "track3_speed" (Some (PyInt 255))); NoData] in
  configured c
  ∧ (start_server rs c).1
    = [Some (Response "success"); Some (Response "success"); None]
  ∧ at_rest 3 (start_server rs c).2.
Proof.
  intros c rs.
  assert (configured c) as Hc by (split; vm_compute; reflexivity).
  destruct (start_server_ends_at_rest rs c Hc) as (Hreplies & _ & Hrest & _).
  refine (conj Hc (conj _ _)).
  - rewrite Hreplies. vm_compute. reflexivity.
  - apply Hrest. vm_compute. eauto.
Defined.

(** * Dispatch by device id *)

Lemma track_action_command
    (d : gmap string pyval) (id : Z) (op : string) (c : controller) :
  0 <= id <= 9 →
  d !! "action" = Some (PyStr (track_action id op)) →
  process_command (PyDict d) c
  = try_except (_handle_track_command id op (PyDict d)) c.
Proof.
  intros Hid Ha.
  assert (id = 0 ∨ id = 1 ∨ id = 2 ∨ id = 3 ∨ id = 4 ∨ id = 5 ∨ id = 6
          ∨ id = 7 ∨ id = 8 ∨ id = 9) as Hcases by lia.
  rewrite (process_command_route d _ c Ha).
  decompose [or] Hcases; subst id;
    match goal with
    | |- context [track_action ?k _] =>
        exact (f_equal (λ r, dispatch (PyDict d) r c)
                 (route_first_underscore
                    ("track" +:+ String (digit_char k) "") op (digit_char k) k
                    eq_refl eq_refl eq_refl))
    end.
Qed.

Lemma switch_action_command
    (d : gmap string pyval) (id : Z) (op : string) (c : controller) :
  0 <= id <= 9 →
  d !! "action" = Some (PyStr (switch_action id op)) →
  process_command (PyDict d) c
  = try_except (_handle_switch_command id op (PyDict d)) c.
Proof.
  intros Hid Ha.
  assert (id = 0 ∨ id = 1 ∨ id = 2 ∨ id = 3 ∨ id = 4 ∨ id = 5 ∨ id = 6
          ∨ id = 7 ∨ id = 8 ∨ id = 9) as Hcases by lia.
  rewrite (process_command_route d _ c Ha).
  decompose [or] Hcases; subst id;
    match goal with
    | |- context [switch_action ?k _] =>
        exact (f_equal (λ r, dispatch (PyDict d) r c)
                 (route_first_underscore
                    ("switch" +:+ String (digit_char k) "") op (digit_char k) k
                    eq_refl eq_refl eq_refl))
    end.
Qed.

Lemma configured_switch_id (c : controller) (id : Z) (s : Switch) :
  configured c → switches c !! id = Some s → id = 0 ∨ id = 1.
Proof.
  intros Hc Hs. destruct (configured_switch c id s Hc Hs) as [Hin _].
  simpl in Hin. destruct Hin as [Hin|[Hin|[]]]; injection Hin; intros; subst; auto.
Qed.

(** X17. A direction command reaches the addressed track and no other
    device: on the configured controller the requests [track<t>_nb],
    [track<t>_sb] and [track<t>_stop] for a registered track [t] are
    answered "success" and do to the pins exactly what [northbound],
    [southbound] and [stop] of that track do; registry and speeds stay as
    they were. *)
Theorem track_commands_reach_their_track
    (c : controller) (id : Z) (t : Track) (d : gmap string pyval) :
  configured c → tracks c !! id = Some t →
  (d !! "action" = Some (PyStr (track_action id "nb")) →
   handle_connection (Decoded (PyDict d)) c
   = (Some (Response "success"),
      Controller (TrackOps.northbound t (rpi c)) (tracks c) (switches c)))
  ∧ (d !! "action" = Some (PyStr (track_action id "sb")) →
     handle_connection (Decoded (PyDict d)) c
     = (Some (Response "success"),
        Controller (TrackOps.southbound t (rpi c)) (tracks c) (switches c)))
  ∧ (d !! "action" = Some (PyStr (track_action id "stop")) →
     handle_connection (Decoded (PyDict d)) c
     = (Some (Response "success"),
        Controller (TrackOps.stop t (rpi c)) (tracks c) (switches c))).
Proof.
  intros Hc Ht.
  assert (0 <= id <= 9) as Hid
    by (destruct (configured_track_id c id t Hc Ht) as [-> | [-> | [-> | -> ]]]; lia).
  destruct (handle_track_nb_sb_stop id t (PyDict d) c Ht) as (Hnb & Hsb & Hstop).
  unfold handle_connection.
  repeat split; intros Ha; rewrite (track_action_command d id _ c Hid Ha).
  - by rewrite Hnb.
  - by rewrite Hsb.
  - by rewrite Hstop.
Qed.

Lemma track_commands_reach_their_track_witness :
  let c := initialize_gpio (write 16 1 power_on) in
  let t := TrackOps.init 3 22 23 24 in
  configured c ∧ tracks c !! 3 = Some t
  ∧ handle_connection (Decoded (request "track3_sb" None)) c
    = (Some (Response "success"),
       Controller (TrackOps.southbound t (rpi c)) (tracks c) (switches c)).
Proof.
  intros c t.
  assert (configured c) as Hc by (split; vm_compute; reflexivity).
  assert (tracks c !! 3 = Some t) as Ht by (vm_compute; reflexivity).
  refine (conj Hc (conj Ht _)).
  destruct (track_commands_reach_their_track c 3 t
              {["action" := PyStr "track3_sb"]} Hc Ht) as (_ & Hsb & _).
  apply Hsb. vm_compute; reflexivity.
Defined.

(** X18. A switch command reaches the addressed switch: on the configured
    controller the requests [switch<s>_direct] and [switch<s>_diverge] for
    a registered switch [s] are answered "success" and do to the pins
    exactly what [direct] and [diverge] of that switch do; the registry
    stays as it was. *)
Theorem switch_commands_reach_their_switch
    (c : controller) (id : Z) (s : Switch) (d : gmap string pyval) :
  configured c → switches c !! id = Some s →
  (d !! "action" = Some (PyStr (switch_action id "direct")) →
   handle_connection (Decoded (PyDict d)) c
   = (Some (Response "success"),
      Controller (SwitchOps.direct s (rpi c)) (tracks c) (switches c)))
  ∧ (d !! "action" = Some (PyStr (switch_action id "diverge")) →
     handle_connection (Decoded (PyDict d)) c
     = (Some (Response "success"),
        Controller (SwitchOps.diverge s (rpi c)) (tracks c) (switches c))).
Proof.
  intros Hc Hs.
  assert (0 <= id <= 9) as Hid
    by (destruct (configured_switch_id c id s Hc Hs) as [-> | ->]; lia).
  unfold handle_connection.
  split; intros Ha; rewrite (switch_action_command d id _ c Hid Ha);
    unfold try_except, _handle_switch_command; by rewrite Hs.
Qed.

Lemma switch_commands_reach_their_switch_witness :
  let c := initialize_gpio power_on in
  let s := MkSwitch 1 22 23 24 in
  configured c ∧ switches c !! 1 = Some s
  ∧ handle_connection (Decoded (request "switch1_direct" None)) c
    = (Some (Response "success"),
       Controller (SwitchOps.direct s (rpi c)) (tracks c) (switches c)).
Proof.
  intros c s.
  assert (configured c) as Hc by (split; vm_compute; reflexivity).
  assert (switches c !! 1 = Some s) as Hs by (vm_compute; reflexivity).
  refine (conj Hc (conj Hs _)).
  destruct (switch_commands_reach_their_switch c 1 s
              {["action" := PyStr "switch1_direct"]} Hc Hs) as (Hdirect & _).
  apply Hdirect. vm_compute; reflexivity.
Defined.

(** X19. Validation errors are answered "error" and touch nothing: on the
    configured controller a request [track<n>_<op>] with a one-digit [n]
    is turned down when no track [n] is registered (n from 4 to 9) or when
    [op] is none of [nb], [sb], [stop], [speed]; a request
    [switch<n>_<op>] is turned down when no switch [n] is registered (n
    from 2 to 9) or when [op] is neither [direct] nor [diverge]. *)
Theorem validation_errors_touch_nothing
    (c : controller) (id : Z) (op : string) (d : gmap string pyval) :
  configured c → 0 <= id <= 9 →
  (d !! "action" = Some (PyStr (track_action id op)) →
   4 <= id ∨ (op ≠ "nb" ∧ op ≠ "sb" ∧ op ≠ "stop" ∧ op ≠ "speed") →
   handle_connection (Decoded (PyDict d)) c = (Some (Response "error"), c))
  ∧ (d !! "action" = Some (PyStr (switch_action id op)) →
     2 <= id ∨ (op ≠ "direct" ∧ op ≠ "diverge") →
     handle_connection (Decoded (PyDict d)) c = (Some (Response "error"), c)).
Proof.
  intros Hc Hid. unfold handle_connection. split; intros Ha Hbad.
  - rewrite (track_action_command d id op c Hid Ha).
    destruct (handle_track_command_cases id op (PyDict d) c)
      as [->|(t & Ht & _ & Hop)]; [done|]. exfalso.
    destruct Hbad as [Hbig|(Hnb & Hsb & Hstop & Hspeed)].
    + destruct (configured_track_id c id t Hc Ht) as [-> | [-> | [-> | -> ]]]; lia.
    + destruct Hop as [[-> _]|[[-> _]|[[-> _]|[-> _]]]]; done.
  - rewrite (switch_action_command d id op c Hid Ha).
    destruct (handle_switch_command_cases id op (PyDict d) c)
      as [->|(s & Hs & _ & Hop)]; [done|]. exfalso.
    destruct Hbad as [Hbig|(Hdirect & Hdiverge)].
    + destruct (configured_switch_id c id s Hc Hs) as [-> | ->]; lia.
    + destruct Hop as [[-> _]|[-> _]]; done.
Qed.

Lemma validation_errors_touch_nothing_witness :
  let c := initialize_gpio power_on in
  configured c
  ∧ handle_connection (Decoded (request "track9_nb" None)) c
    = (Some (Response "error"), c)
  ∧ handle_connection (Decoded (request "switch0_toggle" None)) c
    = (Some (Response "error"), c).
Proof.
  intros c.
  assert (configured c) as Hc by (split; vm_compute; reflexivity).
  refine (conj Hc (conj _ _)).
  - apply (proj1 (validation_errors_touch_nothing c 9 "nb"
                    {["action" := PyStr "track9_nb"]} Hc ltac:(lia)));
      [vm_compute; reflexivity|left; lia].
  - apply (proj2 (validation_errors_touch_nothing c 0 "toggle"
                    {["action" := PyStr "switch0_toggle"]} Hc ltac:(lia)));
      [vm_compute; reflexivity|right; split; discriminate].
Defined.
